(** * Basic branch target buffer of ChampSim (btb/basic_btb/basic_btb.cc)

    A shallow embedding of the per-core predictor state and of the two entry
    points [btb_prediction] and [update_btb], followed by the properties of
    the target cache, the indirect table, the return address stack and the
    call-size trackers.

    Conventions of the embedding:
    - [uint64_t] values are integers of [Z]; the one addition that can wrap
      is reduced modulo [2^64] with [u64];
    - the fixed-size arrays are lists, read with [arr_get] and written with
      [arr_set]; an access outside the array is undefined behaviour in the
      program and [None] here, and it aborts the whole call;
    - the tables the program keys by core ([this], [cpu]) are the fields of
      one [core_state] record: one record per simulated core;
    - [current_cycle], a member of the core the program only reads, is an
      argument of both entry points. *)

From Stdlib Require Import ZArith Lia List.
From stdpp Require Import base option list.

Local Open Scope Z_scope.

(** ** Sizes *)

Definition BASIC_BTB_SETS : Z := 1024.
Definition BASIC_BTB_WAYS : Z := 8.
Definition BASIC_BTB_INDIRECT_SIZE : Z := 4096.
Definition BASIC_BTB_RAS_SIZE : Z := 64.
Definition BASIC_BTB_CALL_INSTR_SIZE_TRACKERS : Z := 1024.

(** Modelled from the spec: [lg2] of util.h is not part of the sources; the
    history register is as wide as the binary logarithm of the indirect
    table's size. *)
Definition lg2 (n : Z) : Z := Z.log2 n.

(** ** Data *)

Record BASIC_BTB_ENTRY : Type := mkEntry {
  ip_tag : Z;
  target : Z;
  always_taken : bool;
  last_cycle_used : Z
}.

(** [BASIC_BTB_ENTRY{}]: the default member initialisers. *)
Definition empty_entry : BASIC_BTB_ENTRY := mkEntry 0 0 false 0.

(** Modelled from the spec: the branch kinds come from a header that is not
    part of the sources. The program compares its [uint8_t branch_type] with
    five of them; every other value, here [BRANCH_DIRECT_JUMP] and
    [BRANCH_OTHER], takes the remaining paths. *)
Inductive branch_type : Type :=
  | BRANCH_DIRECT_JUMP
  | BRANCH_INDIRECT
  | BRANCH_CONDITIONAL
  | BRANCH_DIRECT_CALL
  | BRANCH_INDIRECT_CALL
  | BRANCH_RETURN
  | BRANCH_OTHER.

#[global] Instance branch_type_eq_dec : EqDecision branch_type.
Proof. solve_decision. Defined.

Record core_state : Type := mkCore {
  basic_btb : list BASIC_BTB_ENTRY;
  basic_btb_indirect : list Z;
  basic_btb_conditional_history : Z;
  basic_btb_ras : list Z;
  basic_btb_ras_index : Z;
  basic_btb_call_instr_sizes : list Z
}.

Definition set_btb (s : core_state) (b : list BASIC_BTB_ENTRY) : core_state :=
  mkCore b (basic_btb_indirect s) (basic_btb_conditional_history s)
         (basic_btb_ras s) (basic_btb_ras_index s) (basic_btb_call_instr_sizes s).

Definition set_indirect (s : core_state) (t : list Z) : core_state :=
  mkCore (basic_btb s) t (basic_btb_conditional_history s)
         (basic_btb_ras s) (basic_btb_ras_index s) (basic_btb_call_instr_sizes s).

Definition set_history (s : core_state) (h : Z) : core_state :=
  mkCore (basic_btb s) (basic_btb_indirect s) h
         (basic_btb_ras s) (basic_btb_ras_index s) (basic_btb_call_instr_sizes s).

Definition set_ras (s : core_state) (r : list Z) (i : Z) : core_state :=
  mkCore (basic_btb s) (basic_btb_indirect s) (basic_btb_conditional_history s)
         r i (basic_btb_call_instr_sizes s).

Definition set_call_sizes (s : core_state) (c : list Z) : core_state :=
  mkCore (basic_btb s) (basic_btb_indirect s) (basic_btb_conditional_history s)
         (basic_btb_ras s) (basic_btb_ras_index s) c.

(** ** Machine arithmetic and arrays *)

Definition u64 (z : Z) : Z := z mod 2 ^ 64.

(** A [uint8_t] used as a condition. *)
Definition truthy (z : Z) : bool := negb (z =? 0).

(** [a[i]] as an rvalue. *)
Definition arr_get {A : Type} (a : list A) (i : Z) : option A :=
  if 0 <=? i then a !! Z.to_nat i else None.

(** [a[i] = x]. *)
Definition arr_set {A : Type} (a : list A) (i : Z) (x : A) : option (list A) :=
  if (0 <=? i) && (i <? Z.of_nat (length a))
  then Some (<[Z.to_nat i := x]> a) else None.

(** [std::bitset<lg2(BASIC_BTB_INDIRECT_SIZE)>]: [<<= 1] drops the bit that
    leaves the register, [set(0, v)] writes bit 0. *)
Definition bitset_shl1 (h : Z) : Z :=
  Z.land (Z.shiftl h 1) (Z.ones (lg2 BASIC_BTB_INDIRECT_SIZE)).

Definition bitset_set0 (h : Z) (v : bool) : Z :=
  if v then Z.setbit h 0 else Z.clearbit h 0.

(** ** Helpers of the program *)

(** The subtraction never borrows: the minuend is the larger operand. *)
Definition basic_btb_abs_addr_dist (addr1 addr2 : Z) : Z :=
  if addr1 >? addr2 then addr1 - addr2 else addr2 - addr1.

(** The index is an [int]; it is incremented from a value below the RAS size
    only, so its own overflow is not modelled. *)
Definition push_basic_btb_ras (s : core_state) (ip : Z) : option core_state :=
  let idx := basic_btb_ras_index s + 1 in
  let idx := if idx =? BASIC_BTB_RAS_SIZE then 0 else idx in
  r ← arr_set (basic_btb_ras s) idx ip;
  Some (set_ras s r idx).

Definition peek_basic_btb_ras (s : core_state) : option Z :=
  arr_get (basic_btb_ras s) (basic_btb_ras_index s).

Definition pop_basic_btb_ras (s : core_state) : option (Z * core_state) :=
  tgt ← arr_get (basic_btb_ras s) (basic_btb_ras_index s);
  r ← arr_set (basic_btb_ras s) (basic_btb_ras_index s) 0;
  let idx := basic_btb_ras_index s - 1 in
  let idx := if idx =? -1 then idx + BASIC_BTB_RAS_SIZE else idx in
  Some (tgt, set_ras s r idx).

Definition basic_btb_call_size_tracker_hash (ip : Z) : Z :=
  Z.land ip (BASIC_BTB_CALL_INSTR_SIZE_TRACKERS - 1).

Definition basic_btb_get_call_size (s : core_state) (ip : Z) : option Z :=
  arr_get (basic_btb_call_instr_sizes s) (basic_btb_call_size_tracker_hash ip).

(** [std::find_if(it, it + n, [ip](auto x){ return x.ip_tag == ip; })]:
    the first position whose tag is [ip], or [it + n]. *)
Fixpoint find_if_tag (btb : list BASIC_BTB_ENTRY) (ip : Z) (it : Z) (n : nat)
  : option Z :=
  match n with
  | O => Some it
  | S n' =>
      x ← arr_get btb it;
      if ip_tag x =? ip then Some it else find_if_tag btb ip (it + 1) n'
  end.

(** The loop of [std::min_element] once the first element is the candidate:
    a later element replaces the candidate only when strictly smaller. *)
Fixpoint min_element_loop (btb : list BASIC_BTB_ENTRY) (smallest it : Z) (n : nat)
  : option Z :=
  match n with
  | O => Some smallest
  | S n' =>
      x ← arr_get btb it;
      y ← arr_get btb smallest;
      min_element_loop btb
        (if last_cycle_used x <? last_cycle_used y then it else smallest)
        (it + 1) n'
  end.

(** [std::min_element(first, first + n, by last_cycle_used)]. *)
Definition min_element_lru (btb : list BASIC_BTB_ENTRY) (first : Z) (n : nat)
  : option Z :=
  match n with
  | O => Some first
  | S n' => min_element_loop btb first (first + 1) n'
  end.

(** ** initialize_btb *)

Definition initialize_btb : core_state :=
  mkCore (replicate (Z.to_nat (BASIC_BTB_SETS * BASIC_BTB_WAYS)) empty_entry)
         (replicate (Z.to_nat BASIC_BTB_INDIRECT_SIZE) 0)
         0
         (replicate (Z.to_nat BASIC_BTB_RAS_SIZE) 0)
         0
         (replicate (Z.to_nat BASIC_BTB_CALL_INSTR_SIZE_TRACKERS) 4).

(** ** btb_prediction *)

Definition is_ras_push (bt : branch_type) : bool :=
  bool_decide (bt = BRANCH_DIRECT_CALL) || bool_decide (bt = BRANCH_INDIRECT_CALL).

Definition is_indirect (bt : branch_type) : bool :=
  bool_decide (bt = BRANCH_INDIRECT) || bool_decide (bt = BRANCH_INDIRECT_CALL).

(** The kinds served by the set-associative table. *)
Definition uses_btb (bt : branch_type) : bool :=
  negb (bool_decide (bt = BRANCH_RETURN)) && negb (is_indirect bt).

Definition set_begin_of (ip : Z) : Z :=
  (Z.shiftr ip 2 mod BASIC_BTB_SETS) * BASIC_BTB_WAYS.

Definition set_end_of (ip : Z) : Z := set_begin_of ip + BASIC_BTB_WAYS.

Definition refresh (e : BASIC_BTB_ENTRY) (cycle : Z) : BASIC_BTB_ENTRY :=
  mkEntry (ip_tag e) (target e) (always_taken e) cycle.

Definition btb_prediction (s : core_state) (current_cycle ip : Z) (bt : branch_type)
  : option ((Z * Z) * core_state) :=
  let always_taken0 : Z := if bool_decide (bt ≠ BRANCH_CONDITIONAL) then 1 else 0 in
  s ← (if is_ras_push bt then push_basic_btb_ras s ip else Some s);
  if bool_decide (bt = BRANCH_RETURN) then
    tgt ← peek_basic_btb_ras s;
    size ← basic_btb_get_call_size s tgt;
    Some ((u64 (tgt + size), always_taken0), s)
  else if is_indirect bt then
    let hash := Z.lxor (Z.shiftr ip 2) (basic_btb_conditional_history s) in
    t ← arr_get (basic_btb_indirect s) (hash mod BASIC_BTB_INDIRECT_SIZE);
    Some ((t, always_taken0), s)
  else
    let set_begin := set_begin_of ip in
    let set_end := set_begin + BASIC_BTB_WAYS in
    btb_entry ← find_if_tag (basic_btb s) ip set_begin (Z.to_nat BASIC_BTB_WAYS);
    if btb_entry =? set_end then
      (* no prediction for this IP: always_taken = true *)
      Some ((0, 1), s)
    else
      e ← arr_get (basic_btb s) btb_entry;
      b ← arr_set (basic_btb s) btb_entry (refresh e current_cycle);
      Some ((target e, Z.b2z (always_taken e)), set_btb s b).

(** ** update_btb *)

Definition mark_always_taken (e : BASIC_BTB_ENTRY) : BASIC_BTB_ENTRY :=
  mkEntry (ip_tag e) (target e) true (last_cycle_used e).

(** The part of [update_btb] that settles which entry [btb_entry] designates
    when the assignment [*btb_entry = ...] is reached: the result of the tag
    search, replaced by the least recently used entry of the set, marked
    always taken, when the search ended at [set_end] and the branch was taken
    to a non-zero target. *)
Definition update_btb_entry (btb : list BASIC_BTB_ENTRY) (ip branch_target taken : Z)
  : option (list BASIC_BTB_ENTRY * Z) :=
  let set_begin := set_begin_of ip in
  let set_end := set_begin + BASIC_BTB_WAYS in
  btb_entry ← find_if_tag btb ip set_begin (Z.to_nat BASIC_BTB_WAYS);
  if (btb_entry =? set_end) && negb (branch_target =? 0) && truthy taken then
    victim ← min_element_lru btb set_begin (Z.to_nat BASIC_BTB_WAYS);
    e ← arr_get btb victim;
    b ← arr_set btb victim (mark_always_taken e);
    Some (b, victim)
  else Some (btb, btb_entry).

Definition update_btb (s : core_state) (current_cycle ip branch_target taken : Z)
    (bt : branch_type) : option core_state :=
  s ← (if is_indirect bt then
         let hash := Z.lxor (Z.shiftr ip 2) (basic_btb_conditional_history s) in
         t ← arr_set (basic_btb_indirect s) (hash mod BASIC_BTB_INDIRECT_SIZE)
                     branch_target;
         Some (set_indirect s t)
       else Some s);
  let s :=
    if bool_decide (bt = BRANCH_CONDITIONAL) then
      set_history s
        (bitset_set0 (bitset_shl1 (basic_btb_conditional_history s)) (truthy taken))
    else s in
  if bool_decide (bt = BRANCH_RETURN) then
    '(call_ip, s) ← pop_basic_btb_ras s;
    let estimated_call_instr_size := basic_btb_abs_addr_dist call_ip branch_target in
    if estimated_call_instr_size <=? 10 then
      c ← arr_set (basic_btb_call_instr_sizes s)
                  (basic_btb_call_size_tracker_hash call_ip)
                  estimated_call_instr_size;
      Some (set_call_sizes s c)
    else Some s
  else if negb (bool_decide (bt = BRANCH_INDIRECT))
          && negb (bool_decide (bt = BRANCH_INDIRECT_CALL)) then
    '(b, btb_entry) ← update_btb_entry (basic_btb s) ip branch_target taken;
    e ← arr_get b btb_entry;
    b ← arr_set b btb_entry
          (mkEntry ip branch_target (always_taken e && truthy taken) current_cycle);
    Some (set_btb s b)
  else Some s.

(** The state once the history register has been dealt with. *)
Definition history_after (s : core_state) (taken : Z) (bt : branch_type)
  : core_state :=
  if bool_decide (bt = BRANCH_CONDITIONAL) then
    set_history s
      (bitset_set0 (bitset_shl1 (basic_btb_conditional_history s)) (truthy taken))
  else s.

(** ** Well-formed states

    The lengths are those of the array types; the range of the RAS index and
    of the history register is what the operations maintain. *)

Record wf (s : core_state) : Prop := mkWf {
  wf_btb : length (basic_btb s) = Z.to_nat (BASIC_BTB_SETS * BASIC_BTB_WAYS);
  wf_indirect : length (basic_btb_indirect s) = Z.to_nat BASIC_BTB_INDIRECT_SIZE;
  wf_history :
    0 <= basic_btb_conditional_history s < 2 ^ lg2 BASIC_BTB_INDIRECT_SIZE;
  wf_ras : length (basic_btb_ras s) = Z.to_nat BASIC_BTB_RAS_SIZE;
  wf_ras_index : 0 <= basic_btb_ras_index s < BASIC_BTB_RAS_SIZE;
  wf_call_sizes :
    length (basic_btb_call_instr_sizes s)
    = Z.to_nat BASIC_BTB_CALL_INSTR_SIZE_TRACKERS
}.

(** The part of [wf] the RAS operations rely on. *)
Definition ras_ok (s : core_state) : Prop :=
  length (basic_btb_ras s) = Z.to_nat BASIC_BTB_RAS_SIZE
  /\ 0 <= basic_btb_ras_index s < BASIC_BTB_RAS_SIZE.

(** ** Iterating the RAS operations *)

Fixpoint push_all (s : core_state) (ips : list Z) : option core_state :=
  match ips with
  | [] => Some s
  | ip :: ips' => s' ← push_basic_btb_ras s ip; push_all s' ips'
  end.

Fixpoint pop_n (s : core_state) (n : nat) : option (list Z * core_state) :=
  match n with
  | O => Some ([], s)
  | S n' =>
      '(x, s') ← pop_basic_btb_ras s;
      '(xs, s'') ← pop_n s' n';
      Some (x :: xs, s'')
  end.

(** The address [ip] is found at position [r] of its set, with the
    always-taken flag cleared. *)
Definition tracked_not_taken (s : core_state) (ip r : Z) : Prop :=
  find_if_tag (basic_btb s) ip (set_begin_of ip) (Z.to_nat BASIC_BTB_WAYS) = Some r
  /\ r <> set_end_of ip
  /\ exists e, arr_get (basic_btb s) r = Some e /\ always_taken e = false.

Definition slot_tag (s : core_state) (r : Z) : option Z :=
  ip_tag <$> arr_get (basic_btb s) r.

(** ** Traces of calls *)

(** The two entry points, as the pipeline calls them. *)
Inductive btb_call : Type :=
  | Predict (current_cycle ip : Z) (bt : branch_type)
  | Update (current_cycle ip branch_target taken : Z) (bt : branch_type).

Definition step (s : core_state) (c : btb_call) : option core_state :=
  match c with
  | Predict cy ip bt => snd <$> btb_prediction s cy ip bt
  | Update cy ip tgt tk bt => update_btb s cy ip tgt tk bt
  end.

Fixpoint run (s : core_state) (cs : list btb_call) : option core_state :=
  match cs with
  | [] => Some s
  | c :: cs' => s' ← step s c; run s' cs'
  end.

(** A state whose set 0 is full: eight branches at addresses that are
    multiples of 4096, stamped out of order, the lowest stamp twice. *)
Definition full_set_example : core_state :=
  set_btb initialize_btb
    (list_inserts 0
       [mkEntry 4096 100 true 50; mkEntry 8192 200 true 20;
        mkEntry 12288 300 false 70; mkEntry 16384 400 true 10;
        mkEntry 20480 500 true 30; mkEntry 24576 600 false 10;
        mkEntry 28672 700 true 60; mkEntry 32768 800 true 40]
       (basic_btb initialize_btb)).

(** The outcomes of the conditional branches that a trace resolves, oldest
    first. *)
Fixpoint conditional_outcomes (cs : list btb_call) : list bool :=
  match cs with
  | [] => []
  | Update _ _ _ tk BRANCH_CONDITIONAL :: cs' => truthy tk :: conditional_outcomes cs'
  | _ :: cs' => conditional_outcomes cs'
  end.

(** Where the non-zero tags of a table sit: a tag is in the set of its
    address or in the first entry of the set after it, and within the set of
    its address it occurs once. *)
Definition tags_placed (btb : list BASIC_BTB_ENTRY) : Prop :=
  (forall j e, arr_get btb j = Some e -> ip_tag e <> 0 ->
     set_begin_of (ip_tag e) <= j <= set_end_of (ip_tag e))
  /\ (forall j1 j2 e1 e2,
        arr_get btb j1 = Some e1 -> arr_get btb j2 = Some e2 ->
        ip_tag e1 = ip_tag e2 -> ip_tag e1 <> 0 ->
        j1 < set_end_of (ip_tag e1) -> j2 < set_end_of (ip_tag e1) ->
        j1 = j2).

(** A state in which address 4 sits in the first entry of set 1 with the
    always-taken flag cleared. *)
Definition not_taken_example : core_state :=
  set_btb initialize_btb
    (<[8%nat := mkEntry 4 8192 false 12]> (basic_btb initialize_btb)).

(** * Properties *)

(** ** Arrays *)

Section arrays.
Context {A : Type}.
Implicit Types (a : list A) (i j : Z) (x : A).

Lemma arr_get_Some a i x :
  arr_get a i = Some x <-> 0 <= i /\ a !! Z.to_nat i = Some x.
Proof.
  unfold arr_get. destruct (Z.leb_spec 0 i); split.
  - auto.
  - intros [_ H']; exact H'.
  - discriminate.
  - intros [H' _]; lia.
Qed.

Lemma arr_get_lt a i x : arr_get a i = Some x -> 0 <= i < Z.of_nat (length a).
Proof.
  intros [Hi Hx]%arr_get_Some. apply lookup_lt_Some in Hx. lia.
Qed.

Lemma arr_get_is_Some a i :
  0 <= i < Z.of_nat (length a) -> exists x, arr_get a i = Some x.
Proof.
  intros Hi. destruct (lookup_lt_is_Some_2 a (Z.to_nat i)) as [x Hx]; [lia|].
  exists x. apply arr_get_Some. split; [lia | exact Hx].
Qed.

Lemma arr_get_None a i :
  arr_get a i = None <-> i < 0 \/ Z.of_nat (length a) <= i.
Proof.
  unfold arr_get. destruct (Z.leb_spec 0 i).
  - rewrite lookup_ge_None. lia.
  - split; [intros _; lia | reflexivity].
Qed.

Lemma arr_set_Some a i x :
  0 <= i < Z.of_nat (length a) ->
  arr_set a i x = Some (<[Z.to_nat i := x]> a).
Proof.
  intros Hi. unfold arr_set.
  destruct (Z.leb_spec 0 i); [|lia].
  destruct (Z.ltb_spec i (Z.of_nat (length a))); [reflexivity | lia].
Qed.

Lemma arr_set_inv a i x b :
  arr_set a i x = Some b ->
  0 <= i < Z.of_nat (length a) /\ b = <[Z.to_nat i := x]> a.
Proof.
  unfold arr_set.
  destruct (Z.leb_spec 0 i); destruct (Z.ltb_spec i (Z.of_nat (length a)));
    simpl; intros H'; inversion H'; subst; split; (lia || reflexivity).
Qed.

Lemma arr_set_None a i x :
  arr_set a i x = None <-> i < 0 \/ Z.of_nat (length a) <= i.
Proof.
  unfold arr_set.
  destruct (Z.leb_spec 0 i); destruct (Z.ltb_spec i (Z.of_nat (length a)));
    simpl; split; intros H'; try discriminate; try reflexivity; lia.
Qed.

Lemma arr_get_insert_eq a i x :
  0 <= i < Z.of_nat (length a) -> arr_get (<[Z.to_nat i := x]> a) i = Some x.
Proof.
  intros Hi. apply arr_get_Some. split; [lia|].
  apply list_lookup_insert_eq. lia.
Qed.

Lemma arr_get_insert_ne a i j x :
  0 <= i -> i <> j -> arr_get (<[Z.to_nat i := x]> a) j = arr_get a j.
Proof.
  intros Hi Hne. unfold arr_get. destruct (Z.leb_spec 0 j); [|reflexivity].
  apply list_lookup_insert_ne. lia.
Qed.
End arrays.

(** ** The return address stack *)

Lemma initialize_btb_wf : wf initialize_btb.
Proof. split; vm_compute; try reflexivity; split; congruence. Qed.

Lemma wf_ras_ok s : wf s -> ras_ok s.
Proof. intros H. split; [apply (wf_ras s H) | apply (wf_ras_index s H)]. Qed.

Lemma push_basic_btb_ras_eq s ip :
  ras_ok s ->
  let idx := (basic_btb_ras_index s + 1) mod BASIC_BTB_RAS_SIZE in
  push_basic_btb_ras s ip
  = Some (set_ras s (<[Z.to_nat idx := ip]> (basic_btb_ras s)) idx).
Proof.
  intros [Hlen Hidx] idx. unfold push_basic_btb_ras.
  assert (Hi : (if basic_btb_ras_index s + 1 =? BASIC_BTB_RAS_SIZE
                then 0 else basic_btb_ras_index s + 1) = idx).
  { subst idx. unfold BASIC_BTB_RAS_SIZE in *.
    destruct (Z.eqb_spec (basic_btb_ras_index s + 1) 64) as [->|Hne].
    - reflexivity.
    - rewrite Z.mod_small; lia. }
  rewrite Hi. rewrite arr_set_Some; [reflexivity|].
  subst idx. rewrite Hlen. unfold BASIC_BTB_RAS_SIZE in *.
  pose proof (Z.mod_pos_bound (basic_btb_ras_index s + 1) 64). lia.
Qed.

Lemma pop_basic_btb_ras_eq s :
  ras_ok s ->
  exists x,
    arr_get (basic_btb_ras s) (basic_btb_ras_index s) = Some x
    /\ pop_basic_btb_ras s
       = Some (x, set_ras s (<[Z.to_nat (basic_btb_ras_index s) := 0]> (basic_btb_ras s))
                          ((basic_btb_ras_index s - 1) mod BASIC_BTB_RAS_SIZE)).
Proof.
  intros [Hlen Hidx]. unfold pop_basic_btb_ras.
  destruct (arr_get_is_Some (basic_btb_ras s) (basic_btb_ras_index s)) as [x Hx].
  { rewrite Hlen. unfold BASIC_BTB_RAS_SIZE in *. lia. }
  exists x. split; [exact Hx|]. rewrite Hx. simpl.
  rewrite arr_set_Some by (rewrite Hlen; unfold BASIC_BTB_RAS_SIZE in *; lia).
  simpl. do 3 f_equal. unfold BASIC_BTB_RAS_SIZE in *.
  destruct (Z.eqb_spec (basic_btb_ras_index s - 1) (-1)) as [He|Hne].
  - replace (basic_btb_ras_index s) with 0 by lia. reflexivity.
  - rewrite Z.mod_small; lia.
Qed.

Lemma push_basic_btb_ras_ok s ip s' :
  ras_ok s -> push_basic_btb_ras s ip = Some s' -> ras_ok s'.
Proof.
  intros Hok. rewrite (push_basic_btb_ras_eq s ip Hok). intros [= <-].
  destruct Hok as [Hlen Hidx]. split; simpl.
  - rewrite length_insert. exact Hlen.
  - unfold BASIC_BTB_RAS_SIZE. apply Z.mod_pos_bound. lia.
Qed.

Lemma pop_basic_btb_ras_ok s x s' :
  ras_ok s -> pop_basic_btb_ras s = Some (x, s') -> ras_ok s'.
Proof.
  intros Hok. destruct (pop_basic_btb_ras_eq s Hok) as (y & _ & ->).
  intros [= _ <-]. destruct Hok as [Hlen Hidx]. split; simpl.
  - rewrite length_insert. exact Hlen.
  - unfold BASIC_BTB_RAS_SIZE. apply Z.mod_pos_bound. lia.
Qed.

(** *** Wraparound: the ring seen from its top *)

Local Ltac zmod := unfold BASIC_BTB_RAS_SIZE in *; Z.div_mod_to_equations; lia.

(** Popping [n] times, with [n] at most the capacity, reads the [n] slots at
    and below the top, each before it is cleared. *)
Lemma pop_n_reads n : forall s,
  ras_ok s -> (n <= Z.to_nat BASIC_BTB_RAS_SIZE)%nat ->
  exists xs s',
    pop_n s n = Some (xs, s')
    /\ length xs = n
    /\ forall j, (j < n)%nat ->
         xs !! j = arr_get (basic_btb_ras s)
                     ((basic_btb_ras_index s - Z.of_nat j) mod BASIC_BTB_RAS_SIZE).
Proof.
  induction n as [|n IH]; intros s Hok Hn.
  - exists [], s. split; [reflexivity|]. split; [reflexivity|]. intros j Hj. lia.
  - destruct (pop_basic_btb_ras_eq s Hok) as (x & Hx & Hpop).
    pose proof (pop_basic_btb_ras_ok s _ _ Hok Hpop) as Hok'.
    destruct (IH _ Hok' ltac:(lia)) as (xs & s' & Hxs & Hlen & Hread).
    exists (x :: xs), s'. simpl. rewrite Hpop. simpl. rewrite Hxs. simpl.
    split; [reflexivity|]. split; [simpl; lia|].
    destruct Hok as [Hl Hidx].
    intros [|j] Hj; simpl.
    + rewrite Z.sub_0_r, Z.mod_small by (unfold BASIC_BTB_RAS_SIZE in *; lia).
      symmetry. exact Hx.
    + rewrite (Hread j) by lia. simpl.
      replace ((((basic_btb_ras_index s - 1) mod BASIC_BTB_RAS_SIZE) - Z.of_nat j)
                 mod BASIC_BTB_RAS_SIZE)
        with ((basic_btb_ras_index s - Z.of_nat (S j)) mod BASIC_BTB_RAS_SIZE)
        by zmod.
      apply arr_get_insert_ne; [lia|]. zmod.
Qed.

(** Pushing a list of addresses: the top moves by the length of the list, the
    slots at and below the new top hold the most recent addresses, newest
    first, and every other slot is untouched. *)
Lemma push_all_writes ips : forall s,
  ras_ok s ->
  exists s',
    push_all s ips = Some s'
    /\ ras_ok s'
    /\ basic_btb_ras_index s'
       = (basic_btb_ras_index s + Z.of_nat (length ips)) mod BASIC_BTB_RAS_SIZE
    /\ (forall j, (j < length ips)%nat -> (j < Z.to_nat BASIC_BTB_RAS_SIZE)%nat ->
          arr_get (basic_btb_ras s')
            ((basic_btb_ras_index s' - Z.of_nat j) mod BASIC_BTB_RAS_SIZE)
          = rev ips !! j)
    /\ (forall p,
          (forall j, (j < length ips)%nat ->
             p <> (basic_btb_ras_index s' - Z.of_nat j) mod BASIC_BTB_RAS_SIZE) ->
          arr_get (basic_btb_ras s') p = arr_get (basic_btb_ras s) p).
Proof.
  induction ips as [|ip ips IH]; intros s Hok.
  - exists s. split; [reflexivity|]. split; [exact Hok|]. split.
    + destruct Hok as [_ Hidx]. simpl. rewrite Z.add_0_r, Z.mod_small; [reflexivity|lia].
    + split; [intros j Hj; simpl in Hj; lia | reflexivity].
  - pose proof (push_basic_btb_ras_eq s ip Hok) as Hpush. simpl in Hpush.
    pose proof (push_basic_btb_ras_ok s ip _ Hok Hpush) as Hok1.
    destruct (IH _ Hok1) as (s' & Hall & Hok' & Hidx' & Hnew & Hold).
    simpl in Hidx'.
    exists s'. simpl push_all. rewrite Hpush. simpl. split; [exact Hall|].
    split; [exact Hok'|].
    destruct Hok as [Hl Hidx].
    assert (Htop : (basic_btb_ras_index s' - Z.of_nat (length ips))
                     mod BASIC_BTB_RAS_SIZE
                   = (basic_btb_ras_index s + 1) mod BASIC_BTB_RAS_SIZE).
    { rewrite Hidx'. zmod. }
    split; [rewrite Hidx'; simpl length; zmod|]. split.
    + intros j Hj Hj64. simpl in Hj.
      destruct (decide (j < length ips)%nat) as [Hlt|Hge].
      * rewrite (Hnew j Hlt Hj64). simpl rev.
        symmetry. apply lookup_app_l. rewrite length_rev. exact Hlt.
      * assert (j = length ips) as -> by lia.
        rewrite Htop. rewrite Hold.
        -- simpl. rewrite arr_get_insert_eq.
           ++ simpl rev. symmetry.
              rewrite lookup_app_r by (rewrite length_rev; lia).
              rewrite length_rev, Nat.sub_diag. reflexivity.
           ++ rewrite Hl. zmod.
        -- intros j Hj'. rewrite Hidx'. zmod.
    + intros p Hp. rewrite Hold.
      * simpl. apply arr_get_insert_ne; [zmod|].
        rewrite <- Htop. intros Heq. apply (Hp (length ips)); [simpl; lia|].
        symmetry. exact Heq.
      * intros j Hj. apply Hp. simpl. lia.
Qed.

Lemma rev_lookup_0_last {A : Type} (l : list A) : rev l !! 0%nat = last l.
Proof.
  destruct l as [|x l _] using rev_ind; [reflexivity|].
  rewrite rev_app_distr, last_snoc. reflexivity.
Qed.

(** C8. From every RAS state, pushing [BASIC_BTB_RAS_SIZE + 1] addresses
    leaves the most recently pushed one on top, and [BASIC_BTB_RAS_SIZE] pops
    then return the last [BASIC_BTB_RAS_SIZE] pushed addresses, newest first.
    The addresses need not be distinct. *)
Theorem ras_wraparound (s : core_state) (ips : list Z) :
  ras_ok s ->
  length ips = Z.to_nat (BASIC_BTB_RAS_SIZE + 1) ->
  exists s1 s2,
    push_all s ips = Some s1
    /\ peek_basic_btb_ras s1 = last ips
    /\ pop_n s1 (Z.to_nat BASIC_BTB_RAS_SIZE) = Some (rev (drop 1 ips), s2).
Proof.
  intros Hok Hlen.
  destruct (push_all_writes ips s Hok) as (s1 & Hpush & Hok1 & _ & Hnew & _).
  destruct (pop_n_reads (Z.to_nat BASIC_BTB_RAS_SIZE) s1 Hok1 ltac:(lia))
    as (xs & s2 & Hpop & Hxs & Hread).
  exists s1, s2. split; [exact Hpush|]. split.
  - unfold peek_basic_btb_ras. rewrite <- rev_lookup_0_last.
    rewrite <- (Hnew 0%nat) by (rewrite ?Hlen; unfold BASIC_BTB_RAS_SIZE; lia).
    f_equal. destruct Hok1 as [_ Hidx]. simpl.
    rewrite Z.sub_0_r, Z.mod_small; unfold BASIC_BTB_RAS_SIZE in *; lia.
  - rewrite Hpop. do 2 f_equal.
    change (Z.to_nat (BASIC_BTB_RAS_SIZE + 1))
      with (S (Z.to_nat BASIC_BTB_RAS_SIZE)) in Hlen.
    destruct ips as [|a l]; [discriminate Hlen|].
    change (drop 1 (a :: l)) with l. injection Hlen as Hl.
    apply list_eq. intros j.
    destruct (decide (j < Z.to_nat BASIC_BTB_RAS_SIZE)%nat) as [Hj|Hj].
    + rewrite (Hread j Hj), (Hnew j) by (simpl; rewrite ?Hl; lia).
      simpl rev. apply lookup_app_l. rewrite length_rev, Hl. exact Hj.
    + rewrite !lookup_ge_None_2;
        [reflexivity | rewrite length_rev, Hl; lia | rewrite Hxs; lia].
Qed.

Lemma ras_wraparound_witness :
  exists s1 s2,
    push_all initialize_btb (map Z.of_nat (seq 100 65)) = Some s1
    /\ peek_basic_btb_ras s1 = last (map Z.of_nat (seq 100 65))
    /\ pop_n s1 (Z.to_nat BASIC_BTB_RAS_SIZE)
       = Some (rev (drop 1 (map Z.of_nat (seq 100 65))), s2).
Proof.
  apply (ras_wraparound initialize_btb (map Z.of_nat (seq 100 65))).
  - split; vm_compute; try reflexivity; split; congruence.
  - vm_compute. reflexivity.
Defined.

(** ** The target cache: searching one set *)

Lemma set_begin_of_range ip :
  0 <= set_begin_of ip
  /\ set_begin_of ip + BASIC_BTB_WAYS <= BASIC_BTB_SETS * BASIC_BTB_WAYS
  /\ set_begin_of ip = (Z.shiftr ip 2 mod BASIC_BTB_SETS) * BASIC_BTB_WAYS.
Proof.
  unfold set_begin_of, BASIC_BTB_SETS, BASIC_BTB_WAYS.
  pose proof (Z.mod_pos_bound (Z.shiftr ip 2) 1024). lia.
Qed.

Lemma find_if_tag_spec btb ip n : forall it,
  0 <= it -> it + Z.of_nat n <= Z.of_nat (length btb) ->
  exists r,
    find_if_tag btb ip it n = Some r
    /\ it <= r <= it + Z.of_nat n
    /\ (forall j e, it <= j < r -> arr_get btb j = Some e -> ip_tag e <> ip)
    /\ (r < it + Z.of_nat n -> exists e, arr_get btb r = Some e /\ ip_tag e = ip).
Proof.
  induction n as [|n IH]; intros it H0 Hlen.
  - exists it. simpl. repeat split; intros; lia.
  - destruct (arr_get_is_Some btb it) as [x Hx]; [lia|].
    simpl. rewrite Hx. simpl.
    destruct (Z.eqb_spec (ip_tag x) ip) as [Heq|Hne].
    + exists it. split; [reflexivity|]. split; [lia|]. split.
      * intros j e Hj. lia.
      * intros _. exists x. split; assumption.
    + destruct (IH (it + 1)) as (r & Hr & Hrange & Hbefore & Hat); [lia|lia|].
      exists r. split; [exact Hr|]. split; [lia|]. split.
      * intros j e Hj Hje. destruct (decide (j = it)) as [->|Hji].
        -- congruence.
        -- apply (Hbefore j e); [lia | exact Hje].
      * intros Hlt. apply Hat. lia.
Qed.

(** The search depends on the tags in the scanned range only. *)
Lemma find_if_tag_ext btb btb' ip n : forall it,
  (forall j, it <= j < it + Z.of_nat n ->
     ip_tag <$> arr_get btb' j = ip_tag <$> arr_get btb j) ->
  find_if_tag btb' ip it n = find_if_tag btb ip it n.
Proof.
  induction n as [|n IH]; intros it Hext; [reflexivity|].
  simpl. pose proof (Hext it ltac:(lia)) as Hit.
  destruct (arr_get btb' it) as [x'|], (arr_get btb it) as [x|];
    simpl in *; try congruence.
  injection Hit as ->. destruct (ip_tag x =? ip); [reflexivity|].
  apply IH. intros j Hj. apply Hext. lia.
Qed.

Lemma min_element_loop_spec btb first n : forall c it,
  0 <= first <= c -> c < it -> it + Z.of_nat n <= Z.of_nat (length btb) ->
  (forall j ej ec, first <= j < it -> arr_get btb j = Some ej ->
     arr_get btb c = Some ec -> last_cycle_used ec <= last_cycle_used ej) ->
  (forall j ej ec, first <= j < c -> arr_get btb j = Some ej ->
     arr_get btb c = Some ec -> last_cycle_used ec < last_cycle_used ej) ->
  exists v,
    min_element_loop btb c it n = Some v
    /\ first <= v < it + Z.of_nat n
    /\ (forall j ej ev, first <= j < it + Z.of_nat n -> arr_get btb j = Some ej ->
          arr_get btb v = Some ev -> last_cycle_used ev <= last_cycle_used ej)
    /\ (forall j ej ev, first <= j < v -> arr_get btb j = Some ej ->
          arr_get btb v = Some ev -> last_cycle_used ev < last_cycle_used ej).
Proof.
  induction n as [|n IH]; intros c it Hc Hit Hlen Hle Hlt.
  - exists c. simpl. split; [reflexivity|]. split; [lia|]. split.
    + intros j ej ev Hj. apply Hle. lia.
    + exact Hlt.
  - destruct (arr_get_is_Some btb it) as [x Hx]; [lia|].
    destruct (arr_get_is_Some btb c) as [y Hy]; [lia|].
    simpl. rewrite Hx. simpl. rewrite Hy. simpl.
    destruct (Z.ltb_spec (last_cycle_used x) (last_cycle_used y)) as [Hxy|Hxy].
    + destruct (IH it (it + 1)) as (v & Hv & Hrange & Hmin & Hfirst);
        try lia.
      * intros j ej ec Hj Hje Hec. assert (ec = x) as -> by congruence.
        destruct (decide (j = it)) as [->|Hne].
        -- assert (ej = x) as -> by congruence. lia.
        -- specialize (Hle j ej y ltac:(lia) Hje Hy). lia.
      * intros j ej ec Hj Hje Hec. assert (ec = x) as -> by congruence.
        specialize (Hle j ej y ltac:(lia) Hje Hy). lia.
      * exists v. split; [exact Hv|]. split; [lia|]. split.
        -- intros j ej ev Hj. apply Hmin. lia.
        -- exact Hfirst.
    + destruct (IH c (it + 1)) as (v & Hv & Hrange & Hmin & Hfirst);
        try lia.
      * intros j ej ec Hj Hje Hec. assert (ec = y) as -> by congruence.
        destruct (decide (j = it)) as [->|Hne].
        -- assert (ej = x) as -> by congruence. lia.
        -- apply (Hle j ej y); [lia | exact Hje | exact Hy].
      * exact Hlt.
      * exists v. split; [exact Hv|]. split; [lia|]. split.
        -- intros j ej ev Hj. apply Hmin. lia.
        -- exact Hfirst.
Qed.

Lemma min_element_lru_spec btb first n :
  0 <= first -> (0 < n)%nat -> first + Z.of_nat n <= Z.of_nat (length btb) ->
  exists v,
    min_element_lru btb first n = Some v
    /\ first <= v < first + Z.of_nat n
    /\ (forall j ej ev, first <= j < first + Z.of_nat n -> arr_get btb j = Some ej ->
          arr_get btb v = Some ev -> last_cycle_used ev <= last_cycle_used ej)
    /\ (forall j ej ev, first <= j < v -> arr_get btb j = Some ej ->
          arr_get btb v = Some ev -> last_cycle_used ev < last_cycle_used ej).
Proof.
  intros H0 Hn Hlen. destruct n as [|n]; [lia|]. simpl.
  destruct (min_element_loop_spec btb first n first (first + 1))
    as (v & Hv & Hrange & Hmin & Hfirst); try lia.
  - intros j ej ec Hj Hje Hec. assert (j = first) as -> by lia.
    assert (ej = ec) as -> by congruence. lia.
  - exists v. split; [exact Hv|]. split; [lia|]. split.
    + intros j ej ev Hj. apply Hmin. lia.
    + exact Hfirst.
Qed.

(** ** The target cache: which entry [update_btb] designates *)

Section designated_entry.
Variable btb : list BASIC_BTB_ENTRY.
Hypothesis Hlen : length btb = Z.to_nat (BASIC_BTB_SETS * BASIC_BTB_WAYS).
Variables ip branch_target taken : Z.

Let ways := Z.to_nat BASIC_BTB_WAYS.

Lemma set_in_array :
  0 <= set_begin_of ip
  /\ set_begin_of ip + Z.of_nat ways <= Z.of_nat (length btb).
Proof.
  rewrite Hlen. subst ways. pose proof (set_begin_of_range ip).
  unfold BASIC_BTB_SETS, BASIC_BTB_WAYS in *. lia.
Qed.

Lemma find_in_set :
  exists r,
    find_if_tag btb ip (set_begin_of ip) ways = Some r
    /\ set_begin_of ip <= r <= set_end_of ip
    /\ (forall j e, set_begin_of ip <= j < r -> arr_get btb j = Some e ->
          ip_tag e <> ip)
    /\ (r <> set_end_of ip -> exists e, arr_get btb r = Some e /\ ip_tag e = ip).
Proof.
  destruct set_in_array as [H0 H1].
  destruct (find_if_tag_spec btb ip ways (set_begin_of ip) H0 H1)
    as (r & Hr & Hrange & Hbefore & Hat).
  assert (Hw : Z.of_nat ways = BASIC_BTB_WAYS) by reflexivity.
  exists r. unfold set_end_of. rewrite <- Hw.
  split; [exact Hr|]. split; [exact Hrange|]. split; [exact Hbefore|].
  intros Hne. apply Hat. lia.
Qed.

Lemma update_btb_entry_found r :
  find_if_tag btb ip (set_begin_of ip) ways = Some r ->
  r <> set_end_of ip ->
  update_btb_entry btb ip branch_target taken = Some (btb, r).
Proof.
  intros Hr Hne. unfold update_btb_entry. fold ways. rewrite Hr. simpl.
  fold (set_end_of ip). destruct (Z.eqb_spec r (set_end_of ip)); [contradiction|].
  reflexivity.
Qed.

Lemma update_btb_entry_not_allocated :
  find_if_tag btb ip (set_begin_of ip) ways = Some (set_end_of ip) ->
  branch_target = 0 \/ taken = 0 ->
  update_btb_entry btb ip branch_target taken = Some (btb, set_end_of ip).
Proof.
  intros Hr Hno. unfold update_btb_entry. fold ways. rewrite Hr. simpl.
  fold (set_end_of ip). rewrite Z.eqb_refl. unfold truthy.
  destruct Hno as [-> | ->]; simpl; [reflexivity|].
  rewrite andb_false_r. reflexivity.
Qed.

Lemma update_btb_entry_allocated :
  find_if_tag btb ip (set_begin_of ip) ways = Some (set_end_of ip) ->
  branch_target <> 0 -> taken <> 0 ->
  exists v e,
    min_element_lru btb (set_begin_of ip) ways = Some v
    /\ set_begin_of ip <= v < set_end_of ip
    /\ arr_get btb v = Some e
    /\ (forall j ej, set_begin_of ip <= j < set_end_of ip ->
          arr_get btb j = Some ej -> last_cycle_used e <= last_cycle_used ej)
    /\ (forall j ej, set_begin_of ip <= j < v ->
          arr_get btb j = Some ej -> last_cycle_used e < last_cycle_used ej)
    /\ update_btb_entry btb ip branch_target taken
       = Some (<[Z.to_nat v := mark_always_taken e]> btb, v).
Proof.
  intros Hr Ht Htk. destruct set_in_array as [H0 H1].
  destruct (min_element_lru_spec btb (set_begin_of ip) ways H0)
    as (v & Hv & Hrange & Hmin & Hfirst);
    [subst ways; unfold BASIC_BTB_WAYS; lia | exact H1 |].
  assert (Hw : Z.of_nat ways = BASIC_BTB_WAYS) by reflexivity.
  destruct (arr_get_is_Some btb v) as [e He]; [lia|].
  exists v, e. split; [exact Hv|]. split; [unfold set_end_of; lia|].
  split; [exact He|].
  split; [intros j ej Hj Hje; apply (Hmin j ej e);
          [unfold set_end_of in Hj; lia | exact Hje | exact He]|].
  split; [intros j ej Hj Hje; apply (Hfirst j ej e); assumption|].
  unfold update_btb_entry. fold ways. rewrite Hr. cbn [mbind option_bind].
  fold (set_end_of ip). rewrite Z.eqb_refl. unfold truthy.
  destruct (Z.eqb_spec branch_target 0); [contradiction|].
  destruct (Z.eqb_spec taken 0); [contradiction|]. cbn [negb andb].
  rewrite Hv. cbn [mbind option_bind]. rewrite He. cbn [mbind option_bind].
  rewrite arr_set_Some by lia. reflexivity.
Qed.
End designated_entry.

(** [update_btb] for the branch kinds served by the target cache. *)
Lemma update_btb_uses_btb s current_cycle ip branch_target taken bt :
  uses_btb bt = true ->
  update_btb s current_cycle ip branch_target taken bt
  = '(b, btb_entry) ← update_btb_entry (basic_btb s) ip branch_target taken;
    e ← arr_get b btb_entry;
    b' ← arr_set b btb_entry
           (mkEntry ip branch_target (always_taken e && truthy taken) current_cycle);
    Some (set_btb
            (if bool_decide (bt = BRANCH_CONDITIONAL) then
               set_history s
                 (bitset_set0 (bitset_shl1 (basic_btb_conditional_history s))
                    (truthy taken))
             else s) b').
Proof. destruct bt; try discriminate; intros _; reflexivity. Qed.

(** ** The target cache: replacement *)

(** The update that allocates: a miss for a taken branch with a target. *)
Lemma update_btb_allocating s current_cycle ip branch_target taken bt :
  wf s -> uses_btb bt = true ->
  find_if_tag (basic_btb s) ip (set_begin_of ip) (Z.to_nat BASIC_BTB_WAYS)
  = Some (set_end_of ip) ->
  branch_target <> 0 -> taken <> 0 ->
  exists v ev,
    set_begin_of ip <= v < set_end_of ip
    /\ arr_get (basic_btb s) v = Some ev
    /\ (forall j ej, set_begin_of ip <= j < set_end_of ip ->
          arr_get (basic_btb s) j = Some ej ->
          last_cycle_used ev <= last_cycle_used ej)
    /\ (forall j ej, set_begin_of ip <= j < v ->
          arr_get (basic_btb s) j = Some ej ->
          last_cycle_used ev < last_cycle_used ej)
    /\ update_btb s current_cycle ip branch_target taken bt
       = Some (set_btb (history_after s taken bt)
                 (<[Z.to_nat v := mkEntry ip branch_target true current_cycle]>
                    (basic_btb s))).
Proof.
  intros Hwf Hbt Hmiss Ht Htk.
  pose proof (wf_btb s Hwf) as Hlen.
  destruct (update_btb_entry_allocated (basic_btb s) Hlen ip branch_target taken
              Hmiss Ht Htk) as (v & e & _ & Hrange & He & Hmin & Hfirst & Hentry).
  assert (Hv : 0 <= v < Z.of_nat (length (basic_btb s))).
  { apply arr_get_lt in He. exact He. }
  exists v, e. split; [exact Hrange|]. split; [exact He|]. split; [exact Hmin|].
  split; [exact Hfirst|].
  rewrite (update_btb_uses_btb _ _ _ _ _ _ Hbt), Hentry. cbn [mbind option_bind].
  rewrite arr_get_insert_eq by exact Hv. cbn [mbind option_bind].
  rewrite arr_set_Some by (rewrite length_insert; exact Hv).
  rewrite list_insert_insert_eq.
  assert (Htaken : truthy taken = true).
  { unfold truthy. destruct (Z.eqb_spec taken 0); [contradiction | reflexivity]. }
  unfold history_after. rewrite Htaken. reflexivity.
Qed.

(** C4. When the tag search misses and the branch was taken to a non-zero
    target, [update_btb] overwrites exactly one entry: the one of the selected
    set with the lowest [last_cycle_used], the first such in set order, found
    by scanning the [BASIC_BTB_WAYS] entries of that set only. Every other
    entry of the table is unchanged. *)
Theorem lru_eviction s current_cycle ip branch_target taken bt :
  wf s -> uses_btb bt = true ->
  find_if_tag (basic_btb s) ip (set_begin_of ip) (Z.to_nat BASIC_BTB_WAYS)
  = Some (set_end_of ip) ->
  branch_target <> 0 -> taken <> 0 ->
  exists v ev s',
    update_btb s current_cycle ip branch_target taken bt = Some s'
    /\ set_begin_of ip <= v < set_end_of ip
    /\ arr_get (basic_btb s) v = Some ev
    /\ (forall j ej, set_begin_of ip <= j < set_end_of ip ->
          arr_get (basic_btb s) j = Some ej ->
          last_cycle_used ev <= last_cycle_used ej)
    /\ (forall j ej, set_begin_of ip <= j < v ->
          arr_get (basic_btb s) j = Some ej ->
          last_cycle_used ev < last_cycle_used ej)
    /\ basic_btb s'
       = <[Z.to_nat v := mkEntry ip branch_target true current_cycle]> (basic_btb s)
    /\ arr_get (basic_btb s') v = Some (mkEntry ip branch_target true current_cycle)
    /\ (forall j, j <> v -> arr_get (basic_btb s') j = arr_get (basic_btb s) j).
Proof.
  intros Hwf Hbt Hmiss Ht Htk.
  destruct (update_btb_allocating s current_cycle ip branch_target taken bt
              Hwf Hbt Hmiss Ht Htk) as (v & e & Hrange & He & Hmin & Hfirst & Hu).
  assert (Hv : 0 <= v < Z.of_nat (length (basic_btb s))).
  { apply arr_get_lt in He. exact He. }
  exists v, e. eexists. split; [exact Hu|].
  split; [exact Hrange|]. split; [exact He|]. split; [exact Hmin|].
  split; [exact Hfirst|]. simpl. split; [reflexivity|]. split.
  - apply arr_get_insert_eq. exact Hv.
  - intros j Hj. apply arr_get_insert_ne; [lia | auto].
Qed.

Lemma lru_eviction_witness :
  exists s',
    update_btb full_set_example 80 36864 900 1 BRANCH_DIRECT_JUMP = Some s'
    /\ arr_get (basic_btb full_set_example) 3 = Some (mkEntry 16384 400 true 10)
    /\ arr_get (basic_btb s') 3 = Some (mkEntry 36864 900 true 80)
    /\ (forall j, j <> 3 ->
          arr_get (basic_btb s') j = arr_get (basic_btb full_set_example) j).
Proof.
  assert (Hwf : wf full_set_example).
  { split; vm_compute; try reflexivity; split; congruence. }
  destruct (lru_eviction full_set_example 80 36864 900 1 BRANCH_DIRECT_JUMP)
    as (v & ev & s' & Hu & Hrange & Hev & Hmin & Hfirst & _ & Hnew & Hother).
  - exact Hwf.
  - reflexivity.
  - vm_compute. reflexivity.
  - lia.
  - lia.
  - change (set_begin_of 36864) with 0 in *. change (set_end_of 36864) with 8 in *.
    assert (H3 : arr_get (basic_btb full_set_example) 3
                 = Some (mkEntry 16384 400 true 10)) by reflexivity.
    assert (H5 : arr_get (basic_btb full_set_example) 5
                 = Some (mkEntry 24576 600 false 10)) by reflexivity.
    assert (Hv : v = 3).
    { pose proof (Hmin 3 _ ltac:(lia) H3) as Hle. simpl in Hle.
      assert (Hcases : v = 0 \/ v = 1 \/ v = 2 \/ v = 3 \/ v = 4 \/ v = 5
                       \/ v = 6 \/ v = 7) by lia.
      destruct Hcases as [-> | [-> | [-> | [-> | [-> | [-> | [-> | ->]]]]]]];
        try reflexivity;
        try (injection Hev as <-; simpl in Hle; lia).
      specialize (Hfirst 3 _ ltac:(lia) H3). injection Hev as <-.
      simpl in Hfirst. lia. }
    subst v. exists s'. auto.
Defined.

(** ** The target cache: the assignment after a miss that allocates nothing *)

(** C1. The claim does not hold of the program. When the tag search misses
    and the branch was not taken, or its target is zero, no victim is chosen
    and [btb_entry] is still [set_end] when [*btb_entry] is read and
    assigned: that position is not one of the [BASIC_BTB_WAYS] entries of the
    selected set. For the last set it is one past the end of the table and
    the access is outside the storage; for every other set it is the first
    entry of the next set, which is overwritten. *)
Theorem update_btb_miss_writes_set_end s current_cycle ip branch_target taken bt :
  wf s -> uses_btb bt = true ->
  find_if_tag (basic_btb s) ip (set_begin_of ip) (Z.to_nat BASIC_BTB_WAYS)
  = Some (set_end_of ip) ->
  branch_target = 0 \/ taken = 0 ->
  update_btb_entry (basic_btb s) ip branch_target taken
  = Some (basic_btb s, set_end_of ip)
  /\ ~ (set_begin_of ip <= set_end_of ip < set_begin_of ip + BASIC_BTB_WAYS)
  /\ (Z.shiftr ip 2 mod BASIC_BTB_SETS = BASIC_BTB_SETS - 1 ->
      set_end_of ip = BASIC_BTB_SETS * BASIC_BTB_WAYS
      /\ arr_get (basic_btb s) (set_end_of ip) = None
      /\ update_btb s current_cycle ip branch_target taken bt = None)
  /\ (Z.shiftr ip 2 mod BASIC_BTB_SETS < BASIC_BTB_SETS - 1 ->
      exists e s',
        set_end_of ip = (Z.shiftr ip 2 mod BASIC_BTB_SETS + 1) * BASIC_BTB_WAYS
        /\ arr_get (basic_btb s) (set_end_of ip) = Some e
        /\ update_btb s current_cycle ip branch_target taken bt = Some s'
        /\ basic_btb s'
           = <[Z.to_nat (set_end_of ip) :=
                 mkEntry ip branch_target (always_taken e && truthy taken)
                         current_cycle]> (basic_btb s)).
Proof.
  intros Hwf Hbt Hmiss Hno.
  pose proof (wf_btb s Hwf) as Hlen.
  pose proof (update_btb_entry_not_allocated (basic_btb s) ip branch_target taken
                Hmiss Hno) as Hentry.
  pose proof (set_begin_of_range ip) as (H0 & H1 & Hset).
  split; [exact Hentry|]. split; [unfold set_end_of; lia|].
  rewrite (update_btb_uses_btb _ _ _ _ _ _ Hbt), Hentry. cbn [mbind option_bind].
  unfold set_end_of. rewrite Hset. split.
  - intros Hlast. rewrite Hlast.
    assert (Hnone : arr_get (basic_btb s)
                      ((BASIC_BTB_SETS - 1) * BASIC_BTB_WAYS + BASIC_BTB_WAYS) = None).
    { apply arr_get_None. right. rewrite Hlen.
      unfold BASIC_BTB_SETS, BASIC_BTB_WAYS. lia. }
    split; [unfold BASIC_BTB_SETS, BASIC_BTB_WAYS; lia|].
    split; [exact Hnone|]. rewrite Hnone. reflexivity.
  - intros Hlt.
    assert (Hin : 0 <= (Z.shiftr ip 2 mod BASIC_BTB_SETS) * BASIC_BTB_WAYS
                       + BASIC_BTB_WAYS < Z.of_nat (length (basic_btb s))).
    { rewrite Hlen. unfold BASIC_BTB_SETS, BASIC_BTB_WAYS in *. lia. }
    destruct (arr_get_is_Some _ _ Hin) as [e He].
    exists e. eexists. split; [lia|]. split; [exact He|].
    rewrite He. cbn [mbind option_bind]. rewrite arr_set_Some by exact Hin.
    cbn [mbind option_bind]. split; reflexivity.
Qed.

Example update_btb_overwrites_next_set :
  set_begin_of 1 = 0
  /\ update_btb initialize_btb 7 1 0 0 BRANCH_CONDITIONAL
     = Some (set_btb initialize_btb
               (<[8%nat := mkEntry 1 0 false 7]> (basic_btb initialize_btb))).
Proof. split; vm_compute; reflexivity. Qed.

Lemma update_btb_miss_writes_set_end_witness :
  set_begin_of 4092 = 8184
  /\ update_btb_entry (basic_btb initialize_btb) 4092 0 0
     = Some (basic_btb initialize_btb, BASIC_BTB_SETS * BASIC_BTB_WAYS)
  /\ update_btb initialize_btb 7 4092 0 0 BRANCH_CONDITIONAL = None.
Proof.
  destruct (update_btb_miss_writes_set_end initialize_btb 7 4092 0 0
              BRANCH_CONDITIONAL) as (Hentry & _ & Hlast & _).
  - exact initialize_btb_wf.
  - reflexivity.
  - vm_compute. reflexivity.
  - left. reflexivity.
  - destruct Hlast as (Hend & _ & Hnone); [vm_compute; reflexivity|].
    split; [vm_compute; reflexivity|]. split; [|exact Hnone].
    rewrite Hentry, Hend. reflexivity.
Defined.

(** ** btb_prediction *)

Lemma prediction_push s ip bt :
  wf s ->
  exists s1,
    (if is_ras_push bt then push_basic_btb_ras s ip else Some s) = Some s1
    /\ wf s1
    /\ basic_btb s1 = basic_btb s
    /\ basic_btb_indirect s1 = basic_btb_indirect s
    /\ basic_btb_conditional_history s1 = basic_btb_conditional_history s
    /\ basic_btb_call_instr_sizes s1 = basic_btb_call_instr_sizes s
    /\ (is_ras_push bt = false -> s1 = s)
    /\ (is_ras_push bt = true ->
        let idx := (basic_btb_ras_index s + 1) mod BASIC_BTB_RAS_SIZE in
        s1 = set_ras s (<[Z.to_nat idx := ip]> (basic_btb_ras s)) idx).
Proof.
  intros Hwf. destruct (is_ras_push bt).
  - pose proof (push_basic_btb_ras_eq s ip (wf_ras_ok s Hwf)) as Hpush.
    pose proof (push_basic_btb_ras_ok s ip _ (wf_ras_ok s Hwf) Hpush) as [Hl Hi].
    eexists. split; [exact Hpush|].
    split; [destruct Hwf; split; simpl; assumption|].
    do 4 (split; [reflexivity|]). split; [discriminate | reflexivity].
  - exists s. split; [reflexivity|]. split; [exact Hwf|].
    do 4 (split; [reflexivity|]). split; [reflexivity | discriminate].
Qed.

Lemma btb_prediction_uses_btb s current_cycle ip bt :
  uses_btb bt = true ->
  btb_prediction s current_cycle ip bt
  = s1 ← (if is_ras_push bt then push_basic_btb_ras s ip else Some s);
    btb_entry ← find_if_tag (basic_btb s1) ip (set_begin_of ip)
                  (Z.to_nat BASIC_BTB_WAYS);
    if btb_entry =? set_end_of ip then Some ((0, 1), s1)
    else
      e ← arr_get (basic_btb s1) btb_entry;
      b ← arr_set (basic_btb s1) btb_entry (refresh e current_cycle);
      Some ((target e, Z.b2z (always_taken e)), set_btb s1 b).
Proof. destruct bt; try discriminate; intros _; reflexivity. Qed.

(** A lookup that misses: the pair is [(0, 1)] whatever the branch kind. *)
Lemma btb_prediction_miss_eq s current_cycle ip bt :
  wf s -> uses_btb bt = true ->
  find_if_tag (basic_btb s) ip (set_begin_of ip) (Z.to_nat BASIC_BTB_WAYS)
  = Some (set_end_of ip) ->
  exists s',
    btb_prediction s current_cycle ip bt = Some ((0, 1), s')
    /\ basic_btb s' = basic_btb s
    /\ (is_ras_push bt = false -> s' = s).
Proof.
  intros Hwf Hbt Hmiss.
  destruct (prediction_push s ip bt Hwf)
    as (s1 & Hs1 & _ & Hb & _ & _ & _ & Hsame & _).
  exists s1. rewrite (btb_prediction_uses_btb _ _ _ _ Hbt), Hs1.
  cbn [mbind option_bind]. rewrite Hb, Hmiss. cbn [mbind option_bind].
  rewrite Z.eqb_refl. auto.
Qed.

(** A lookup that hits at position [r]. *)
Lemma btb_prediction_hit_eq s current_cycle ip bt r :
  wf s -> uses_btb bt = true ->
  find_if_tag (basic_btb s) ip (set_begin_of ip) (Z.to_nat BASIC_BTB_WAYS)
  = Some r ->
  r <> set_end_of ip ->
  exists e s1,
    arr_get (basic_btb s) r = Some e
    /\ ip_tag e = ip
    /\ set_begin_of ip <= r < set_end_of ip
    /\ (if is_ras_push bt then push_basic_btb_ras s ip else Some s) = Some s1
    /\ btb_prediction s current_cycle ip bt
       = Some ((target e, Z.b2z (always_taken e)),
               set_btb s1 (<[Z.to_nat r := refresh e current_cycle]> (basic_btb s))).
Proof.
  intros Hwf Hbt Hr Hne.
  destruct (find_in_set (basic_btb s) (wf_btb s Hwf) ip)
    as (r' & Hr' & Hrange & _ & Hat).
  assert (r' = r) as -> by congruence.
  destruct (Hat Hne) as (e & He & Htag).
  destruct (prediction_push s ip bt Hwf)
    as (s1 & Hs1 & _ & Hb & _).
  exists e, s1. split; [exact He|]. split; [exact Htag|]. split; [lia|].
  split; [exact Hs1|].
  rewrite (btb_prediction_uses_btb _ _ _ _ Hbt), Hs1.
  cbn [mbind option_bind]. rewrite Hb, Hr. cbn [mbind option_bind].
  destruct (Z.eqb_spec r (set_end_of ip)); [contradiction|].
  rewrite He. cbn [mbind option_bind].
  rewrite arr_set_Some by (apply arr_get_lt in He; exact He). reflexivity.
Qed.

(** C2, as amended. For a branch kind served by the target cache whose
    address misses in the selected set, [btb_prediction] returns [(0, 1)]:
    the always-taken hint is set for every such kind, [BRANCH_CONDITIONAL]
    included. *)
Theorem miss_hint_always_set s current_cycle ip bt :
  wf s -> uses_btb bt = true ->
  find_if_tag (basic_btb s) ip (set_begin_of ip) (Z.to_nat BASIC_BTB_WAYS)
  = Some (set_end_of ip) ->
  fst <$> btb_prediction s current_cycle ip bt = Some (0, 1).
Proof.
  intros Hwf Hbt Hmiss.
  destruct (btb_prediction_miss_eq s current_cycle ip bt Hwf Hbt Hmiss)
    as (s' & -> & _).
  reflexivity.
Qed.

Lemma miss_hint_always_set_witness :
  fst <$> btb_prediction initialize_btb 7 4096 BRANCH_DIRECT_CALL = Some (0, 1).
Proof.
  apply (miss_hint_always_set initialize_btb 7 4096 BRANCH_DIRECT_CALL).
  - exact initialize_btb_wf.
  - reflexivity.
  - vm_compute. reflexivity.
Defined.

(** C2, as stated, fails: a conditional branch that misses gets the hint 1,
    not 0. *)
Lemma miss_hint_conditional_counterexample :
  wf initialize_btb
  /\ uses_btb BRANCH_CONDITIONAL = true
  /\ find_if_tag (basic_btb initialize_btb) 4096 (set_begin_of 4096)
       (Z.to_nat BASIC_BTB_WAYS) = Some (set_end_of 4096)
  /\ fst <$> btb_prediction initialize_btb 7 4096 BRANCH_CONDITIONAL = Some (0, 1)
  /\ fst <$> btb_prediction initialize_btb 7 4096 BRANCH_CONDITIONAL <> Some (0, 0).
Proof.
  split; [exact initialize_btb_wf|]. split; [reflexivity|].
  split; [vm_compute; reflexivity|].
  split; [vm_compute; reflexivity|].
  vm_compute. discriminate.
Qed.

Lemma basic_btb_call_size_tracker_hash_mod ip :
  basic_btb_call_size_tracker_hash ip = ip mod BASIC_BTB_CALL_INSTR_SIZE_TRACKERS.
Proof.
  unfold basic_btb_call_size_tracker_hash, BASIC_BTB_CALL_INSTR_SIZE_TRACKERS.
  change (1024 - 1) with (Z.ones 10). rewrite Z.land_ones by lia. reflexivity.
Qed.

Lemma branch_type_cases bt :
  bt = BRANCH_RETURN \/ is_indirect bt = true \/ uses_btb bt = true.
Proof. destruct bt; auto. Qed.

(** The four ways a prediction is served, each from the state [s1] reached
    after the push that calls perform first. *)
Lemma btb_prediction_cases s current_cycle ip bt :
  wf s ->
  exists s1,
    (if is_ras_push bt then push_basic_btb_ras s ip else Some s) = Some s1
    /\ ((bt = BRANCH_RETURN
         /\ exists tgt size,
             peek_basic_btb_ras s = Some tgt
             /\ basic_btb_get_call_size s tgt = Some size
             /\ btb_prediction s current_cycle ip bt
                = Some ((u64 (tgt + size), 1), s1))
        \/ (is_indirect bt = true
            /\ exists t,
                arr_get (basic_btb_indirect s)
                  (Z.lxor (Z.shiftr ip 2) (basic_btb_conditional_history s)
                   mod BASIC_BTB_INDIRECT_SIZE) = Some t
                /\ btb_prediction s current_cycle ip bt = Some ((t, 1), s1))
        \/ (uses_btb bt = true
            /\ find_if_tag (basic_btb s) ip (set_begin_of ip)
                 (Z.to_nat BASIC_BTB_WAYS) = Some (set_end_of ip)
            /\ btb_prediction s current_cycle ip bt = Some ((0, 1), s1))
        \/ (uses_btb bt = true
            /\ exists r e,
                find_if_tag (basic_btb s) ip (set_begin_of ip)
                  (Z.to_nat BASIC_BTB_WAYS) = Some r
                /\ set_begin_of ip <= r < set_end_of ip
                /\ arr_get (basic_btb s) r = Some e
                /\ ip_tag e = ip
                /\ btb_prediction s current_cycle ip bt
                   = Some ((target e, Z.b2z (always_taken e)),
                           set_btb s1 (<[Z.to_nat r := refresh e current_cycle]>
                                         (basic_btb s))))).
Proof.
  intros Hwf.
  destruct (prediction_push s ip bt Hwf)
    as (s1 & Hs1 & Hwf1 & Hb & Hi & Hh & Hc & Hsame & _).
  exists s1. split; [exact Hs1|].
  destruct (branch_type_cases bt) as [-> | [Hind | Hbt]].
  - left. split; [reflexivity|].
    assert (s1 = s) as -> by (apply Hsame; reflexivity).
    destruct (arr_get_is_Some (basic_btb_ras s) (basic_btb_ras_index s))
      as [tgt Htgt].
    { rewrite (wf_ras s Hwf). pose proof (wf_ras_index s Hwf).
      unfold BASIC_BTB_RAS_SIZE in *. lia. }
    destruct (arr_get_is_Some (basic_btb_call_instr_sizes s)
                (basic_btb_call_size_tracker_hash tgt)) as [size Hsize].
    { rewrite (wf_call_sizes s Hwf), basic_btb_call_size_tracker_hash_mod.
      unfold BASIC_BTB_CALL_INSTR_SIZE_TRACKERS.
      pose proof (Z.mod_pos_bound tgt 1024). lia. }
    exists tgt, size. split; [exact Htgt|]. split; [exact Hsize|].
    unfold btb_prediction. cbn [is_ras_push bool_decide decide_rel orb mbind option_bind].
    simpl. unfold peek_basic_btb_ras, basic_btb_get_call_size.
    rewrite Htgt. cbn [mbind option_bind]. rewrite Hsize. reflexivity.
  - right. left. split; [exact Hind|].
    destruct (arr_get_is_Some (basic_btb_indirect s)
                (Z.lxor (Z.shiftr ip 2) (basic_btb_conditional_history s)
                 mod BASIC_BTB_INDIRECT_SIZE)) as [t Ht].
    { rewrite (wf_indirect s Hwf). unfold BASIC_BTB_INDIRECT_SIZE.
      pose proof (Z.mod_pos_bound
                    (Z.lxor (Z.shiftr ip 2) (basic_btb_conditional_history s)) 4096).
      lia. }
    exists t. split; [exact Ht|].
    assert (Heq : btb_prediction s current_cycle ip bt
                  = s1 ← (if is_ras_push bt then push_basic_btb_ras s ip else Some s);
                    t ← arr_get (basic_btb_indirect s1)
                          (Z.lxor (Z.shiftr ip 2) (basic_btb_conditional_history s1)
                           mod BASIC_BTB_INDIRECT_SIZE);
                    Some ((t, 1), s1)).
    { destruct bt; try discriminate; reflexivity. }
    rewrite Heq, Hs1. cbn [mbind option_bind]. rewrite Hi, Hh, Ht. reflexivity.
  - right. right.
    destruct (find_in_set (basic_btb s) (wf_btb s Hwf) ip)
      as (r & Hr & Hrange & _ & Hat).
    destruct (decide (r = set_end_of ip)) as [-> | Hne].
    + left. split; [exact Hbt|]. split; [exact Hr|].
      rewrite (btb_prediction_uses_btb _ _ _ _ Hbt), Hs1.
      cbn [mbind option_bind]. rewrite Hb, Hr. cbn [mbind option_bind].
      rewrite Z.eqb_refl. reflexivity.
    + right. split; [exact Hbt|].
      destruct (btb_prediction_hit_eq s current_cycle ip bt r Hwf Hbt Hr Hne)
        as (e & s1' & He & Htag & Hrange' & Hs1' & Hpred).
      assert (s1' = s1) as -> by congruence.
      exists r, e. auto 10.
Qed.

Lemma refresh_fields e cycle :
  ip_tag (refresh e cycle) = ip_tag e
  /\ target (refresh e cycle) = target e
  /\ always_taken (refresh e cycle) = always_taken e
  /\ last_cycle_used (refresh e cycle) = cycle.
Proof. repeat split. Qed.

(** C10. [btb_prediction] always returns; it leaves the indirect table, the
    history register and the call-size trackers unchanged; it changes the
    RAS only for [BRANCH_DIRECT_CALL] and [BRANCH_INDIRECT_CALL], by the one
    push; and in the target cache it changes nothing but the
    [last_cycle_used] field of the entry the lookup hit: every tag, target
    and [always_taken] flag is as before. *)
Theorem btb_prediction_frame s current_cycle ip bt :
  wf s ->
  exists r s',
    btb_prediction s current_cycle ip bt = Some (r, s')
    /\ wf s'
    /\ basic_btb_indirect s' = basic_btb_indirect s
    /\ basic_btb_conditional_history s' = basic_btb_conditional_history s
    /\ basic_btb_call_instr_sizes s' = basic_btb_call_instr_sizes s
    /\ (bt <> BRANCH_DIRECT_CALL -> bt <> BRANCH_INDIRECT_CALL ->
        basic_btb_ras s' = basic_btb_ras s
        /\ basic_btb_ras_index s' = basic_btb_ras_index s)
    /\ (bt = BRANCH_DIRECT_CALL \/ bt = BRANCH_INDIRECT_CALL ->
        push_basic_btb_ras s ip
        = Some (set_ras s (basic_btb_ras s') (basic_btb_ras_index s'))
        /\ arr_get (basic_btb_ras s') (basic_btb_ras_index s') = Some ip
        /\ forall j, j <> basic_btb_ras_index s' ->
             arr_get (basic_btb_ras s') j = arr_get (basic_btb_ras s) j)
    /\ length (basic_btb s') = length (basic_btb s)
    /\ (forall j e, arr_get (basic_btb s) j = Some e ->
          exists e',
            arr_get (basic_btb s') j = Some e'
            /\ ip_tag e' = ip_tag e
            /\ target e' = target e
            /\ always_taken e' = always_taken e
            /\ (last_cycle_used e' <> last_cycle_used e ->
                uses_btb bt = true
                /\ find_if_tag (basic_btb s) ip (set_begin_of ip)
                     (Z.to_nat BASIC_BTB_WAYS) = Some j
                /\ j <> set_end_of ip
                /\ ip_tag e = ip
                /\ last_cycle_used e' = current_cycle)).
Proof.
  intros Hwf.
  destruct (btb_prediction_cases s current_cycle ip bt Hwf) as (s1 & Hs1 & Hcases).
  destruct (prediction_push s ip bt Hwf)
    as (s1' & Hs1' & Hwf1 & Hb & Hi & Hh & Hc & Hsame & Hpushed).
  assert (s1' = s1) as -> by congruence. clear Hs1'.
  assert (Hras : (bt <> BRANCH_DIRECT_CALL -> bt <> BRANCH_INDIRECT_CALL ->
                  basic_btb_ras s1 = basic_btb_ras s
                  /\ basic_btb_ras_index s1 = basic_btb_ras_index s)
                 /\ (bt = BRANCH_DIRECT_CALL \/ bt = BRANCH_INDIRECT_CALL ->
                     push_basic_btb_ras s ip
                     = Some (set_ras s (basic_btb_ras s1) (basic_btb_ras_index s1))
                     /\ arr_get (basic_btb_ras s1) (basic_btb_ras_index s1) = Some ip
                     /\ forall j, j <> basic_btb_ras_index s1 ->
                          arr_get (basic_btb_ras s1) j = arr_get (basic_btb_ras s) j)).
  { split.
    - intros H1 H2. rewrite Hsame; [auto|]. destruct bt; try reflexivity; congruence.
    - intros Hcall.
      assert (Hp : is_ras_push bt = true) by (destruct Hcall; subst bt; reflexivity).
      rewrite Hp in Hs1. specialize (Hpushed Hp). simpl in Hpushed.
      pose proof (wf_ras s Hwf) as Hl. pose proof (wf_ras_index s Hwf) as Hx.
      assert (Hin : 0 <= (basic_btb_ras_index s + 1) mod BASIC_BTB_RAS_SIZE
                    < Z.of_nat (length (basic_btb_ras s))).
      { rewrite Hl. unfold BASIC_BTB_RAS_SIZE.
        pose proof (Z.mod_pos_bound (basic_btb_ras_index s + 1) 64). lia. }
      rewrite Hs1. subst s1. simpl. split; [reflexivity|]. split.
      + apply arr_get_insert_eq. exact Hin.
      + intros j Hj. apply arr_get_insert_ne; [lia | auto]. }
  destruct Hras as [Hras1 Hras2].
  assert (Hsame_btb : forall j e, arr_get (basic_btb s) j = Some e ->
            exists e', arr_get (basic_btb s1) j = Some e'
              /\ ip_tag e' = ip_tag e /\ target e' = target e
              /\ always_taken e' = always_taken e
              /\ (last_cycle_used e' <> last_cycle_used e ->
                  uses_btb bt = true
                  /\ find_if_tag (basic_btb s) ip (set_begin_of ip)
                       (Z.to_nat BASIC_BTB_WAYS) = Some j
                  /\ j <> set_end_of ip /\ ip_tag e = ip
                  /\ last_cycle_used e' = current_cycle)).
  { intros j e He. exists e. rewrite Hb. repeat split; try assumption;
      contradiction. }
  destruct Hcases as [(-> & tgt & size & _ & _ & Hpred)
                     | [(Hind & t & _ & Hpred)
                       | [(Hbt & Hmiss & Hpred)
                         | (Hbt & r & e & Hr & Hrange & He & Htag & Hpred)]]].
  1-3: eexists; exists s1; split; [exact Hpred|];
       split; [exact Hwf1|]; do 3 (split; [assumption|]);
       split; [exact Hras1|]; split; [exact Hras2|];
       split; [rewrite Hb; reflexivity | exact Hsame_btb].
  eexists. eexists. split; [exact Hpred|].
  assert (Hrin : 0 <= r < Z.of_nat (length (basic_btb s)))
    by (apply arr_get_lt in He; exact He).
  split.
  { destruct Hwf1. split; simpl; try assumption.
    rewrite length_insert. apply (wf_btb s Hwf). }
  simpl. do 3 (split; [assumption|]). split; [exact Hras1|]. split; [exact Hras2|].
  split; [apply length_insert|].
  intros j ej Hej. destruct (decide (j = r)) as [-> | Hjr].
  - assert (ej = e) as -> by congruence.
    exists (refresh e current_cycle). rewrite arr_get_insert_eq by exact Hrin.
    split; [reflexivity|]. do 3 (split; [reflexivity|]).
    intros _. split; [exact Hbt|]. split; [exact Hr|].
    split; [lia|]. split; [exact Htag | reflexivity].
  - exists ej. rewrite arr_get_insert_ne by lia.
    split; [exact Hej|]. do 3 (split; [reflexivity|]). intros Hc'. contradiction.
Qed.

Lemma btb_prediction_frame_witness :
  exists r s',
    btb_prediction initialize_btb 7 4096 BRANCH_INDIRECT_CALL = Some (r, s')
    /\ basic_btb_indirect s' = basic_btb_indirect initialize_btb
    /\ basic_btb_conditional_history s'
       = basic_btb_conditional_history initialize_btb
    /\ basic_btb_call_instr_sizes s' = basic_btb_call_instr_sizes initialize_btb
    /\ length (basic_btb s') = length (basic_btb initialize_btb).
Proof.
  destruct (btb_prediction_frame initialize_btb 7 4096 BRANCH_INDIRECT_CALL
              initialize_btb_wf)
    as (r & s' & Hp & _ & Hi & Hh & Hc & _ & _ & Hl & _).
  exists r, s'. auto.
Defined.

(** ** update_btb, by branch kind *)

Lemma update_btb_return s current_cycle ip branch_target taken :
  update_btb s current_cycle ip branch_target taken BRANCH_RETURN
  = '(call_ip, s1) ← pop_basic_btb_ras s;
    if basic_btb_abs_addr_dist call_ip branch_target <=? 10 then
      c ← arr_set (basic_btb_call_instr_sizes s1)
            (basic_btb_call_size_tracker_hash call_ip)
            (basic_btb_abs_addr_dist call_ip branch_target);
      Some (set_call_sizes s1 c)
    else Some s1.
Proof. reflexivity. Qed.

Lemma update_btb_indirect s current_cycle ip branch_target taken bt :
  is_indirect bt = true ->
  update_btb s current_cycle ip branch_target taken bt
  = t ← arr_set (basic_btb_indirect s)
          (Z.lxor (Z.shiftr ip 2) (basic_btb_conditional_history s)
           mod BASIC_BTB_INDIRECT_SIZE) branch_target;
    Some (set_indirect s t).
Proof.
  intros Hind. unfold update_btb. rewrite Hind.
  destruct (arr_set _ _ _); [|reflexivity].
  destruct bt; try discriminate; reflexivity.
Qed.

Lemma basic_btb_abs_addr_dist_abs addr1 addr2 :
  basic_btb_abs_addr_dist addr1 addr2 = Z.abs (addr1 - addr2).
Proof.
  unfold basic_btb_abs_addr_dist.
  destruct (Z.gtb_spec addr1 addr2); lia.
Qed.

(** ** The indirect target table *)

(** C5. An update for [BRANCH_INDIRECT] or [BRANCH_INDIRECT_CALL] writes the
    resolved target into slot [((ip >> 2) xor H) mod BASIC_BTB_INDIRECT_SIZE]
    of the indirect table, [H] being the history register, which the update
    leaves as it is; a prediction for either kind at the same address then
    returns that target with the always-taken flag set. In every state a
    prediction of these kinds reads the slot given by the same formula. *)
Theorem indirect_update_then_predict
    s current_cycle ip branch_target taken bt current_cycle' bt' :
  wf s -> is_indirect bt = true -> is_indirect bt' = true ->
  let slot := Z.lxor (Z.shiftr ip 2) (basic_btb_conditional_history s)
              mod BASIC_BTB_INDIRECT_SIZE in
  exists s',
    update_btb s current_cycle ip branch_target taken bt = Some s'
    /\ wf s'
    /\ 0 <= slot < BASIC_BTB_INDIRECT_SIZE
    /\ basic_btb_indirect s'
       = <[Z.to_nat slot := branch_target]> (basic_btb_indirect s)
    /\ basic_btb_conditional_history s' = basic_btb_conditional_history s
    /\ fst <$> btb_prediction s' current_cycle' ip bt' = Some (branch_target, 1)
    /\ (forall s0, wf s0 ->
          basic_btb_conditional_history s0 = basic_btb_conditional_history s ->
          fst <$> btb_prediction s0 current_cycle' ip bt'
          = (fun t => (t, 1)) <$> arr_get (basic_btb_indirect s0) slot).
Proof.
  intros Hwf Hbt Hbt' slot.
  assert (Hslot : 0 <= slot < BASIC_BTB_INDIRECT_SIZE).
  { subst slot. unfold BASIC_BTB_INDIRECT_SIZE. apply Z.mod_pos_bound. lia. }
  assert (Hin : 0 <= slot < Z.of_nat (length (basic_btb_indirect s))).
  { rewrite (wf_indirect s Hwf). unfold BASIC_BTB_INDIRECT_SIZE in *. lia. }
  assert (Hread : forall s0, wf s0 ->
            basic_btb_conditional_history s0 = basic_btb_conditional_history s ->
            fst <$> btb_prediction s0 current_cycle' ip bt'
            = (fun t => (t, 1)) <$> arr_get (basic_btb_indirect s0) slot).
  { intros s0 Hwf0 Hh.
    destruct (btb_prediction_cases s0 current_cycle' ip bt' Hwf0)
      as (s1 & _ & [(-> & _) | [(_ & t & Ht & ->) | [(Hu & _) | (Hu & _)]]]).
    - discriminate Hbt'.
    - rewrite Hh in Ht. subst slot. rewrite Ht. reflexivity.
    - destruct bt'; discriminate.
    - destruct bt'; discriminate. }
  eexists. rewrite (update_btb_indirect _ _ _ _ _ _ Hbt).
  fold slot. rewrite arr_set_Some by exact Hin. cbn [mbind option_bind].
  split; [reflexivity|].
  assert (Hwf' : wf (set_indirect s (<[Z.to_nat slot := branch_target]>
                                       (basic_btb_indirect s)))).
  { destruct Hwf. split; simpl; try assumption. rewrite length_insert. assumption. }
  split; [exact Hwf'|]. split; [exact Hslot|]. split; [reflexivity|].
  split; [reflexivity|]. split; [|exact Hread].
  rewrite (Hread _ Hwf' eq_refl). simpl basic_btb_indirect.
  rewrite arr_get_insert_eq by exact Hin. reflexivity.
Qed.

Lemma indirect_update_then_predict_witness :
  exists s',
    update_btb initialize_btb 7 4096 8192 1 BRANCH_INDIRECT = Some s'
    /\ fst <$> btb_prediction s' 9 4096 BRANCH_INDIRECT_CALL = Some (8192, 1).
Proof.
  destruct (indirect_update_then_predict initialize_btb 7 4096 8192 1
              BRANCH_INDIRECT 9 BRANCH_INDIRECT_CALL)
    as (s' & Hu & _ & _ & _ & _ & Hp & _).
  - exact initialize_btb_wf.
  - reflexivity.
  - reflexivity.
  - exists s'. split; assumption.
Defined.

(** ** Returns: recalibrating the call-size trackers *)

(** C6. An update for [BRANCH_RETURN] pops the RAS: the call-site address
    [call_ip] is the entry at the top index, that slot is then 0 and the
    index has moved down by one, from 0 to [BASIC_BTB_RAS_SIZE - 1]. With
    the distance [|call_ip - branch_target|], the tracker at
    [call_ip mod BASIC_BTB_CALL_INSTR_SIZE_TRACKERS] is overwritten with the
    distance exactly when the distance is at most 10; above 10 the trackers
    are unchanged, and every other tracker is unchanged in both cases. The
    target cache, the indirect table and the history register are
    untouched. *)
Theorem return_update_recalibrates s current_cycle ip branch_target taken :
  wf s ->
  exists call_ip s',
    arr_get (basic_btb_ras s) (basic_btb_ras_index s) = Some call_ip
    /\ update_btb s current_cycle ip branch_target taken BRANCH_RETURN = Some s'
    /\ wf s'
    /\ basic_btb_ras s'
       = <[Z.to_nat (basic_btb_ras_index s) := 0]> (basic_btb_ras s)
    /\ basic_btb_ras_index s'
       = (if basic_btb_ras_index s =? 0 then BASIC_BTB_RAS_SIZE - 1
          else basic_btb_ras_index s - 1)
    /\ pop_basic_btb_ras s
       = Some (call_ip, set_ras s (basic_btb_ras s') (basic_btb_ras_index s'))
    /\ basic_btb s' = basic_btb s
    /\ basic_btb_indirect s' = basic_btb_indirect s
    /\ basic_btb_conditional_history s' = basic_btb_conditional_history s
    /\ basic_btb_abs_addr_dist call_ip branch_target = Z.abs (call_ip - branch_target)
    /\ basic_btb_call_instr_sizes s'
       = (if Z.abs (call_ip - branch_target) <=? 10 then
            <[Z.to_nat (call_ip mod BASIC_BTB_CALL_INSTR_SIZE_TRACKERS) :=
                Z.abs (call_ip - branch_target)]> (basic_btb_call_instr_sizes s)
          else basic_btb_call_instr_sizes s)
    /\ (forall j, j <> call_ip mod BASIC_BTB_CALL_INSTR_SIZE_TRACKERS ->
          arr_get (basic_btb_call_instr_sizes s') j
          = arr_get (basic_btb_call_instr_sizes s) j)
    /\ (Z.abs (call_ip - branch_target) <= 10 ->
        arr_get (basic_btb_call_instr_sizes s')
          (call_ip mod BASIC_BTB_CALL_INSTR_SIZE_TRACKERS)
        = Some (Z.abs (call_ip - branch_target))
        /\ basic_btb_get_call_size s' call_ip
           = Some (Z.abs (call_ip - branch_target)))
    /\ (10 < Z.abs (call_ip - branch_target) ->
        basic_btb_call_instr_sizes s' = basic_btb_call_instr_sizes s).
Proof.
  intros Hwf.
  destruct (pop_basic_btb_ras_eq s (wf_ras_ok s Hwf)) as (call_ip & Htop & Hpop).
  pose proof (pop_basic_btb_ras_ok s _ _ (wf_ras_ok s Hwf) Hpop) as [Hl1 Hi1].
  pose proof (wf_ras_index s Hwf) as Hidx.
  assert (Hdown : (basic_btb_ras_index s - 1) mod BASIC_BTB_RAS_SIZE
                  = (if basic_btb_ras_index s =? 0 then BASIC_BTB_RAS_SIZE - 1
                     else basic_btb_ras_index s - 1)).
  { unfold BASIC_BTB_RAS_SIZE in *.
    destruct (Z.eqb_spec (basic_btb_ras_index s) 0) as [-> | Hnz];
      [reflexivity | apply Z.mod_small; lia]. }
  rewrite Hdown in Hpop, Hl1, Hi1.
  set (s1 := set_ras s (<[Z.to_nat (basic_btb_ras_index s) := 0]> (basic_btb_ras s))
                     (if basic_btb_ras_index s =? 0 then BASIC_BTB_RAS_SIZE - 1
                      else basic_btb_ras_index s - 1)) in *.
  assert (Hwf1 : wf s1) by (destruct Hwf; split; simpl; assumption).
  assert (Hin : 0 <= call_ip mod BASIC_BTB_CALL_INSTR_SIZE_TRACKERS
                < Z.of_nat (length (basic_btb_call_instr_sizes s))).
  { rewrite (wf_call_sizes s Hwf). unfold BASIC_BTB_CALL_INSTR_SIZE_TRACKERS.
    pose proof (Z.mod_pos_bound call_ip 1024). lia. }
  exists call_ip.
  rewrite update_btb_return, Hpop. cbn [mbind option_bind].
  rewrite basic_btb_abs_addr_dist_abs, basic_btb_call_size_tracker_hash_mod.
  destruct (Z.leb_spec (Z.abs (call_ip - branch_target)) 10) as [Hle | Hgt].
  - change (basic_btb_call_instr_sizes s1) with (basic_btb_call_instr_sizes s).
    rewrite arr_set_Some by exact Hin. cbn [mbind option_bind].
    eexists. split; [exact Htop|]. split; [reflexivity|].
    split.
    { destruct Hwf1. split; simpl; try assumption.
      rewrite length_insert. apply (wf_call_sizes s Hwf). }
    simpl. do 8 (split; [reflexivity|]). split.
    { intros j Hj. apply arr_get_insert_ne; [lia | auto]. }
    split; [|lia]. intros _. split.
    + apply arr_get_insert_eq. exact Hin.
    + unfold basic_btb_get_call_size. rewrite basic_btb_call_size_tracker_hash_mod.
      simpl. apply arr_get_insert_eq. exact Hin.
  - exists s1. split; [exact Htop|]. split; [reflexivity|]. split; [exact Hwf1|].
    simpl. do 8 (split; [reflexivity|]). split; [reflexivity|].
    split; [lia | reflexivity].
Qed.

Lemma return_update_recalibrates_witness :
  let s1 := set_ras initialize_btb
              (<[1%nat := 4096]> (basic_btb_ras initialize_btb)) 1 in
  push_basic_btb_ras initialize_btb 4096 = Some s1
  /\ exists s' s'',
      update_btb s1 7 9000 4102 1 BRANCH_RETURN = Some s'
      /\ basic_btb_ras s' = <[1%nat := 0]> (basic_btb_ras s1)
      /\ basic_btb_ras_index s' = 0
      /\ basic_btb_call_instr_sizes s'
         = <[0%nat := 6]> (basic_btb_call_instr_sizes s1)
      /\ basic_btb_get_call_size s' 4096 = Some 6
      /\ update_btb s1 8 9000 5000 1 BRANCH_RETURN = Some s''
      /\ basic_btb_ras s'' = <[1%nat := 0]> (basic_btb_ras s1)
      /\ basic_btb_ras_index s'' = 0
      /\ basic_btb_call_instr_sizes s'' = basic_btb_call_instr_sizes s1.
Proof.
  intros s1. split; [reflexivity|].
  assert (Hwf1 : wf s1) by (split; vm_compute; try reflexivity; split; congruence).
  destruct (return_update_recalibrates s1 7 9000 4102 1 Hwf1)
    as (call_ip & s' & Htop & Hu & _ & Hras & Hidx & _ & _ & _ & _ & _ & Hsz
        & _ & Hle & _).
  assert (call_ip = 4096) as -> by (vm_compute in Htop; congruence).
  destruct (return_update_recalibrates s1 8 9000 5000 1 Hwf1)
    as (call_ip & s'' & Htop' & Hu' & _ & Hras' & Hidx' & _ & _ & _ & _ & _ & _
        & _ & _ & Hgt).
  assert (call_ip = 4096) as -> by (vm_compute in Htop'; congruence).
  exists s', s''. split; [exact Hu|]. split; [exact Hras|]. split; [exact Hidx|].
  split; [exact Hsz|]. split; [apply Hle; simpl; lia|].
  split; [exact Hu'|]. split; [exact Hras'|]. split; [exact Hidx'|].
  apply Hgt. simpl. lia.
Defined.

(** ** The conditional history register *)

Lemma history_shift_bits h v i :
  Z.testbit (bitset_set0 (bitset_shl1 h) v) i
  = if i =? 0 then v
    else (i <? lg2 BASIC_BTB_INDIRECT_SIZE) && Z.testbit h (i - 1).
Proof.
  change (lg2 BASIC_BTB_INDIRECT_SIZE) with 12.
  destruct (Z.ltb_spec i 0) as [Hneg | Hpos].
  - rewrite Z.testbit_neg_r by lia.
    destruct (Z.eqb_spec i 0); [lia|].
    rewrite (Z.testbit_neg_r h (i - 1)) by lia. rewrite andb_false_r. reflexivity.
  - assert (Hx : Z.testbit (bitset_shl1 h) i
                 = Z.testbit h (i - 1) && (i <? 12)).
    { unfold bitset_shl1. change (lg2 BASIC_BTB_INDIRECT_SIZE) with 12.
      rewrite Z.land_spec, Z.shiftl_spec by lia.
      rewrite Z.testbit_ones by lia.
      destruct (Z.leb_spec 0 i); [reflexivity | lia]. }
    unfold bitset_set0. destruct v.
    + rewrite Z.setbit_eqb by lia. rewrite Hx.
      destruct (Z.eqb_spec 0 i) as [<- | Hne]; [reflexivity|].
      destruct (Z.eqb_spec i 0); [lia|]. simpl. apply andb_comm.
    + rewrite Z.clearbit_eqb by lia. rewrite Hx.
      destruct (Z.eqb_spec 0 i) as [<- | Hne].
      * rewrite andb_false_r. reflexivity.
      * destruct (Z.eqb_spec i 0); [lia|]. simpl.
        rewrite andb_true_r. apply andb_comm.
Qed.

Lemma pop_basic_btb_ras_inv s x s1 :
  pop_basic_btb_ras s = Some (x, s1) ->
  exists r i, s1 = set_ras s r i /\ length r = length (basic_btb_ras s).
Proof.
  unfold pop_basic_btb_ras. intros H.
  apply bind_Some in H as (tgt & _ & H).
  apply bind_Some in H as (r & Hr & H).
  apply arr_set_inv in Hr as [_ ->].
  injection H as _ <-. eexists _, _. split; [reflexivity|]. apply length_insert.
Qed.

Lemma update_btb_entry_inv btb ip branch_target taken b it :
  update_btb_entry btb ip branch_target taken = Some (b, it) ->
  (b = btb
   /\ find_if_tag btb ip (set_begin_of ip) (Z.to_nat BASIC_BTB_WAYS) = Some it
   /\ (it <> set_end_of ip \/ branch_target = 0 \/ taken = 0))
  \/ (exists e,
        find_if_tag btb ip (set_begin_of ip) (Z.to_nat BASIC_BTB_WAYS)
        = Some (set_end_of ip)
        /\ branch_target <> 0 /\ taken <> 0
        /\ min_element_lru btb (set_begin_of ip) (Z.to_nat BASIC_BTB_WAYS) = Some it
        /\ arr_get btb it = Some e
        /\ b = <[Z.to_nat it := mark_always_taken e]> btb).
Proof.
  unfold update_btb_entry. intros H.
  apply bind_Some in H as (r & Hr & H). fold (set_end_of ip) in H.
  unfold truthy in H.
  destruct (Z.eqb_spec r (set_end_of ip)) as [-> | Hne];
    destruct (Z.eqb_spec branch_target 0) as [Ht | Ht];
    destruct (Z.eqb_spec taken 0) as [Hk | Hk];
    cbn [negb andb] in H;
    try (injection H as <- <-; left; split; [reflexivity|]; split; [exact Hr|];
         auto; fail).
  right.
  apply bind_Some in H as (v & Hv & H).
  apply bind_Some in H as (e & He & H).
  apply bind_Some in H as (b' & Hb' & H).
  injection H as <- <-. apply arr_set_inv in Hb' as [_ ->].
  exists e. auto 10.
Qed.

Lemma update_btb_uses_btb_inv s current_cycle ip branch_target taken bt s' :
  uses_btb bt = true ->
  update_btb s current_cycle ip branch_target taken bt = Some s' ->
  exists b it e,
    update_btb_entry (basic_btb s) ip branch_target taken = Some (b, it)
    /\ arr_get b it = Some e
    /\ s' = set_btb
              (if bool_decide (bt = BRANCH_CONDITIONAL) then
                 set_history s
                   (bitset_set0 (bitset_shl1 (basic_btb_conditional_history s))
                      (truthy taken))
               else s)
              (<[Z.to_nat it :=
                   mkEntry ip branch_target (always_taken e && truthy taken)
                           current_cycle]> b).
Proof.
  intros Hbt. rewrite (update_btb_uses_btb _ _ _ _ _ _ Hbt). intros H.
  apply bind_Some in H as ([b it] & Hentry & H).
  apply bind_Some in H as (e & He & H).
  apply bind_Some in H as (b' & Hb' & H).
  apply arr_set_inv in Hb' as [_ ->]. injection H as <-.
  exists b, it, e. auto.
Qed.

(** What [update_btb] does to the history register, whatever the kind. *)
Lemma update_btb_history s current_cycle ip branch_target taken bt s' :
  update_btb s current_cycle ip branch_target taken bt = Some s' ->
  basic_btb_conditional_history s'
  = if bool_decide (bt = BRANCH_CONDITIONAL) then
      bitset_set0 (bitset_shl1 (basic_btb_conditional_history s)) (truthy taken)
    else basic_btb_conditional_history s.
Proof.
  destruct (branch_type_cases bt) as [-> | [Hind | Hbt]].
  - rewrite update_btb_return. intros H.
    apply bind_Some in H as ([call_ip s1] & Hpop & H).
    apply pop_basic_btb_ras_inv in Hpop as (r & i & -> & _).
    destruct (_ <=? 10).
    + apply bind_Some in H as (c & _ & H). injection H as <-. reflexivity.
    + injection H as <-. reflexivity.
  - rewrite (update_btb_indirect _ _ _ _ _ _ Hind). intros H.
    apply bind_Some in H as (t & _ & H). injection H as <-.
    destruct bt; try discriminate; reflexivity.
  - intros H.
    apply (update_btb_uses_btb_inv _ _ _ _ _ _ _ Hbt) in H
      as (b & it & e & _ & _ & ->).
    destruct (bool_decide (bt = BRANCH_CONDITIONAL)); reflexivity.
Qed.

Lemma btb_prediction_history s current_cycle ip bt :
  wf s ->
  exists r s',
    btb_prediction s current_cycle ip bt = Some (r, s')
    /\ basic_btb_conditional_history s' = basic_btb_conditional_history s.
Proof.
  intros Hwf.
  destruct (btb_prediction_cases s current_cycle ip bt Hwf) as (s1 & Hs1 & Hcases).
  destruct (prediction_push s ip bt Hwf) as (s1' & Hs1' & _ & _ & _ & Hh & _).
  assert (s1' = s1) as -> by congruence.
  destruct Hcases as [(_ & tgt & size & _ & _ & Hpred)
                     | [(_ & t & _ & Hpred)
                       | [(_ & _ & Hpred)
                         | (_ & r & e & _ & _ & _ & _ & Hpred)]]];
    eexists _, _; (split; [exact Hpred | exact Hh]).
Qed.

(** C7. The history register is changed by updates of kind
    [BRANCH_CONDITIONAL] only: such an update shifts it left by one bit
    within its width and sets bit 0 to the resolved outcome. Updates of every
    other kind and all predictions leave it as it is. *)
Theorem history_changed_by_conditional_update_only :
  (forall s current_cycle ip branch_target taken s',
     update_btb s current_cycle ip branch_target taken BRANCH_CONDITIONAL = Some s' ->
     forall i,
       Z.testbit (basic_btb_conditional_history s') i
       = if i =? 0 then truthy taken
         else (i <? lg2 BASIC_BTB_INDIRECT_SIZE)
              && Z.testbit (basic_btb_conditional_history s) (i - 1))
  /\ (forall s current_cycle ip branch_target taken bt s',
        bt <> BRANCH_CONDITIONAL ->
        update_btb s current_cycle ip branch_target taken bt = Some s' ->
        basic_btb_conditional_history s' = basic_btb_conditional_history s)
  /\ (forall s current_cycle ip bt,
        wf s ->
        exists r s',
          btb_prediction s current_cycle ip bt = Some (r, s')
          /\ basic_btb_conditional_history s' = basic_btb_conditional_history s).
Proof.
  split; [|split].
  - intros s current_cycle ip branch_target taken s' Hu i.
    rewrite (update_btb_history _ _ _ _ _ _ _ Hu). apply history_shift_bits.
  - intros s current_cycle ip branch_target taken bt s' Hbt Hu.
    rewrite (update_btb_history _ _ _ _ _ _ _ Hu).
    destruct bt; try reflexivity. contradiction.
  - intros s current_cycle ip bt Hwf.
    apply btb_prediction_history. exact Hwf.
Qed.

Lemma history_changed_by_conditional_update_only_witness :
  exists s',
    update_btb initialize_btb 7 4096 8192 1 BRANCH_CONDITIONAL = Some s'
    /\ forall i,
         Z.testbit (basic_btb_conditional_history s') i
         = if i =? 0 then truthy 1
           else (i <? lg2 BASIC_BTB_INDIRECT_SIZE)
                && Z.testbit (basic_btb_conditional_history initialize_btb) (i - 1).
Proof.
  destruct history_changed_by_conditional_update_only as (Hcond & _ & _).
  assert (Hu : update_btb initialize_btb 7 4096 8192 1 BRANCH_CONDITIONAL
               = Some (set_btb (set_history initialize_btb 1)
                         (<[0%nat := mkEntry 4096 8192 true 7]>
                            (basic_btb initialize_btb))))
    by (vm_compute; reflexivity).
  eexists. split; [exact Hu|].
  apply (Hcond initialize_btb 7 4096 8192 1 _ Hu).
Defined.

(** ** Well-formedness is kept *)

Lemma history_shift_range h v :
  0 <= bitset_set0 (bitset_shl1 h) v < 2 ^ lg2 BASIC_BTB_INDIRECT_SIZE.
Proof.
  set (y := bitset_set0 (bitset_shl1 h) v).
  assert (Hy : y = y mod 2 ^ lg2 BASIC_BTB_INDIRECT_SIZE).
  { change (lg2 BASIC_BTB_INDIRECT_SIZE) with 12.
    rewrite <- Z.land_ones by lia. apply Z.bits_inj'. intros i Hi.
    rewrite Z.land_spec, Z.testbit_ones by lia. subst y.
    rewrite history_shift_bits. change (lg2 BASIC_BTB_INDIRECT_SIZE) with 12.
    destruct (Z.eqb_spec i 0) as [-> | Hne].
    - destruct v; reflexivity.
    - destruct (Z.leb_spec 0 i); [|lia].
      destruct (i <? 12); simpl; [rewrite andb_true_r|]; reflexivity. }
  rewrite Hy. apply Z.mod_pos_bound. change (lg2 BASIC_BTB_INDIRECT_SIZE) with 12. lia.
Qed.

Lemma btb_prediction_wf s current_cycle ip bt r s' :
  wf s -> btb_prediction s current_cycle ip bt = Some (r, s') -> wf s'.
Proof.
  intros Hwf Hp.
  destruct (btb_prediction_cases s current_cycle ip bt Hwf) as (s1 & Hs1 & Hcases).
  destruct (prediction_push s ip bt Hwf) as (s1' & Hs1' & Hwf1 & _).
  assert (s1' = s1) as -> by congruence.
  destruct Hcases as [(_ & tgt & size & _ & _ & Hpred)
                     | [(_ & t & _ & Hpred)
                       | [(_ & _ & Hpred)
                         | (_ & r' & e & _ & _ & He & _ & Hpred)]]];
    rewrite Hpred in Hp; injection Hp as _ <-; try exact Hwf1.
  destruct Hwf1. split; simpl; try assumption.
  rewrite length_insert. apply (wf_btb s Hwf).
Qed.

Lemma update_btb_wf s current_cycle ip branch_target taken bt s' :
  wf s -> update_btb s current_cycle ip branch_target taken bt = Some s' -> wf s'.
Proof.
  intros Hwf. destruct (branch_type_cases bt) as [-> | [Hind | Hbt]].
  - rewrite update_btb_return. intros H.
    apply bind_Some in H as ([call_ip s1] & Hpop & H).
    pose proof (pop_basic_btb_ras_ok s _ _ (wf_ras_ok s Hwf) Hpop) as [Hl Hi].
    apply pop_basic_btb_ras_inv in Hpop as (r & i & -> & _).
    assert (Hwf1 : wf (set_ras s r i)) by (destruct Hwf; split; simpl; assumption).
    destruct (_ <=? 10).
    + apply bind_Some in H as (c & Hc & H). injection H as <-.
      apply arr_set_inv in Hc as [_ ->].
      destruct Hwf1. split; simpl; try assumption.
      rewrite length_insert. apply (wf_call_sizes s Hwf).
    + injection H as <-. exact Hwf1.
  - rewrite (update_btb_indirect _ _ _ _ _ _ Hind). intros H.
    apply bind_Some in H as (t & Ht & H). injection H as <-.
    apply arr_set_inv in Ht as [_ ->].
    destruct Hwf. split; simpl; try assumption.
    rewrite length_insert. assumption.
  - intros H.
    apply (update_btb_uses_btb_inv _ _ _ _ _ _ _ Hbt) in H
      as (b & it & e & Hentry & _ & ->).
    assert (Hb : length b = length (basic_btb s)).
    { apply update_btb_entry_inv in Hentry
        as [(-> & _) | (e' & _ & _ & _ & _ & _ & ->)];
        [reflexivity | apply length_insert]. }
    destruct Hwf.
    destruct (bool_decide (bt = BRANCH_CONDITIONAL)); split; simpl;
      try assumption; try apply history_shift_range;
      rewrite length_insert, Hb; assumption.
Qed.

Lemma step_wf s c s' : wf s -> step s c = Some s' -> wf s'.
Proof.
  intros Hwf. destruct c as [cy ip bt | cy ip tgt tk bt]; simpl.
  - intros H. apply fmap_Some in H as ([r s1] & Hp & ->).
    apply (btb_prediction_wf _ _ _ _ _ _ Hwf Hp).
  - apply update_btb_wf. exact Hwf.
Qed.

(** Every state reached from a well-formed one is well-formed: the lengths
    are kept, and the RAS index and the history register stay in range. *)
Lemma run_wf cs : forall s s', wf s -> run s cs = Some s' -> wf s'.
Proof.
  induction cs as [|c cs IH]; intros s s' Hwf; simpl.
  - intros [= <-]. exact Hwf.
  - intros H. apply bind_Some in H as (s1 & Hstep & H).
    apply (IH s1 s' (step_wf _ _ _ Hwf Hstep) H).
Qed.

(** ** The target cache: the always-taken flag *)

Lemma find_if_tag_first btb ip n : forall it v e,
  0 <= it -> it + Z.of_nat n <= Z.of_nat (length btb) ->
  it <= v < it + Z.of_nat n ->
  arr_get btb v = Some e -> ip_tag e = ip ->
  (forall j ej, it <= j < v -> arr_get btb j = Some ej -> ip_tag ej <> ip) ->
  find_if_tag btb ip it n = Some v.
Proof.
  intros it v e H0 Hlen Hv He Htag Hbefore.
  destruct (find_if_tag_spec btb ip n it H0 Hlen) as (r & Hr & Hrange & Hb & Hat).
  rewrite Hr. f_equal.
  destruct (Z.lt_trichotomy r v) as [Hlt | [Heq | Hgt]]; [|exact Heq|].
  - destruct (Hat ltac:(lia)) as (er & Her & Hert).
    exfalso. apply (Hbefore r er); [lia | exact Her | exact Hert].
  - exfalso. apply (Hb v e); [lia | exact He | exact Htag].
Qed.

(** The update that finds its entry. *)
Lemma update_btb_found s current_cycle ip branch_target taken bt r :
  wf s -> uses_btb bt = true ->
  find_if_tag (basic_btb s) ip (set_begin_of ip) (Z.to_nat BASIC_BTB_WAYS)
  = Some r ->
  r <> set_end_of ip ->
  exists e,
    arr_get (basic_btb s) r = Some e
    /\ ip_tag e = ip
    /\ update_btb s current_cycle ip branch_target taken bt
       = Some (set_btb (history_after s taken bt)
                 (<[Z.to_nat r :=
                      mkEntry ip branch_target (always_taken e && truthy taken)
                              current_cycle]> (basic_btb s))).
Proof.
  intros Hwf Hbt Hr Hne.
  destruct (find_in_set (basic_btb s) (wf_btb s Hwf) ip)
    as (r' & Hr' & _ & _ & Hat).
  assert (r' = r) as -> by congruence.
  destruct (Hat Hne) as (e & He & Htag).
  exists e. split; [exact He|]. split; [exact Htag|].
  rewrite (update_btb_uses_btb _ _ _ _ _ _ Hbt).
  rewrite (update_btb_entry_found _ _ branch_target taken _ Hr Hne).
  cbn [mbind option_bind]. rewrite He. cbn [mbind option_bind].
  rewrite arr_set_Some by (apply arr_get_lt in He; exact He). reflexivity.
Qed.

(** A prediction made right after the entry at [r] was assigned [new], when
    no earlier entry of the set carries the tag. *)
Lemma btb_prediction_after_write s s0 current_cycle ip bt r new :
  wf s -> uses_btb bt = true ->
  set_begin_of ip <= r < set_end_of ip ->
  (forall j ej, set_begin_of ip <= j < r -> arr_get (basic_btb s) j = Some ej ->
     ip_tag ej <> ip) ->
  ip_tag new = ip ->
  wf (set_btb s0 (<[Z.to_nat r := new]> (basic_btb s))) ->
  fst <$> btb_prediction (set_btb s0 (<[Z.to_nat r := new]> (basic_btb s)))
            current_cycle ip bt
  = Some (target new, Z.b2z (always_taken new)).
Proof.
  intros Hwf Hbt Hr Hbefore Htag Hwf'.
  pose proof (set_in_array (basic_btb s) (wf_btb s Hwf) ip) as [H0 H1].
  assert (Hw : Z.of_nat (Z.to_nat BASIC_BTB_WAYS) = BASIC_BTB_WAYS) by reflexivity.
  assert (Hin : 0 <= r < Z.of_nat (length (basic_btb s)))
    by (unfold set_end_of in Hr; lia).
  assert (Hfind : find_if_tag (<[Z.to_nat r := new]> (basic_btb s)) ip
                    (set_begin_of ip) (Z.to_nat BASIC_BTB_WAYS) = Some r).
  { apply (find_if_tag_first _ _ _ _ r new).
    - exact H0.
    - rewrite length_insert. exact H1.
    - unfold set_end_of in Hr. lia.
    - apply arr_get_insert_eq. exact Hin.
    - exact Htag.
    - intros j ej Hj. rewrite arr_get_insert_ne by lia. apply Hbefore. exact Hj. }
  destruct (btb_prediction_hit_eq _ current_cycle ip bt r Hwf' Hbt Hfind
              ltac:(lia)) as (e & s1 & He & _ & _ & _ & Hpred).
  simpl in He. rewrite arr_get_insert_eq in He by exact Hin.
  injection He as <-. rewrite Hpred. reflexivity.
Qed.

(** A freshly allocated entry is predicted with the flag set. *)
Lemma fresh_allocation_predicted_taken
    s current_cycle ip branch_target taken bt current_cycle' bt' :
  wf s -> uses_btb bt = true -> uses_btb bt' = true ->
  find_if_tag (basic_btb s) ip (set_begin_of ip) (Z.to_nat BASIC_BTB_WAYS)
  = Some (set_end_of ip) ->
  branch_target <> 0 -> taken <> 0 ->
  exists s',
    update_btb s current_cycle ip branch_target taken bt = Some s'
    /\ fst <$> btb_prediction s' current_cycle' ip bt' = Some (branch_target, 1).
Proof.
  intros Hwf Hbt Hbt' Hmiss Ht Htk.
  destruct (update_btb_allocating s current_cycle ip branch_target taken bt
              Hwf Hbt Hmiss Ht Htk) as (v & e & Hrange & He & _ & _ & Hu).
  eexists. split; [exact Hu|].
  destruct (find_in_set (basic_btb s) (wf_btb s Hwf) ip)
    as (r & Hr & _ & Hbefore & _).
  assert (r = set_end_of ip) as -> by congruence.
  apply (btb_prediction_after_write s _ current_cycle' ip bt' v
           (mkEntry ip branch_target true current_cycle) Hwf Hbt' Hrange).
  - intros j ej Hj. apply Hbefore. lia.
  - reflexivity.
  - apply (update_btb_wf _ _ _ _ _ _ _ Hwf Hu).
Qed.

(** The flag decays: after an update that finds the entry, the flag that is
    predicted is the conjunction of the flag before and the outcome. It is
    cleared by one not-taken outcome and a taken outcome does not set it
    again. *)
Lemma found_update_predicted_flag
    s current_cycle ip branch_target taken bt current_cycle' bt' r e :
  wf s -> uses_btb bt = true -> uses_btb bt' = true ->
  find_if_tag (basic_btb s) ip (set_begin_of ip) (Z.to_nat BASIC_BTB_WAYS)
  = Some r ->
  r <> set_end_of ip ->
  arr_get (basic_btb s) r = Some e ->
  exists s',
    update_btb s current_cycle ip branch_target taken bt = Some s'
    /\ fst <$> btb_prediction s' current_cycle' ip bt'
       = Some (branch_target, Z.b2z (always_taken e && truthy taken)).
Proof.
  intros Hwf Hbt Hbt' Hr Hne He.
  destruct (update_btb_found s current_cycle ip branch_target taken bt r
              Hwf Hbt Hr Hne) as (e' & He' & _ & Hu).
  assert (e' = e) as -> by congruence.
  eexists. split; [exact Hu|].
  destruct (find_in_set (basic_btb s) (wf_btb s Hwf) ip)
    as (r' & Hr' & Hrange & Hbefore & _).
  assert (r' = r) as -> by congruence.
  apply (btb_prediction_after_write s _ current_cycle' ip bt' r
           (mkEntry ip branch_target (always_taken e && truthy taken) current_cycle)
           Hwf Hbt' ltac:(lia) Hbefore eq_refl).
  apply (update_btb_wf _ _ _ _ _ _ _ Hwf Hu).
Qed.

(** What one update does to the table: nothing for returns and indirect
    branches, one assignment otherwise. *)
Lemma update_btb_table s current_cycle ip branch_target taken bt s' :
  wf s ->
  update_btb s current_cycle ip branch_target taken bt = Some s' ->
  (uses_btb bt = false /\ basic_btb s' = basic_btb s)
  \/ (exists it flag,
        uses_btb bt = true
        /\ 0 <= it < Z.of_nat (length (basic_btb s))
        /\ basic_btb s'
           = <[Z.to_nat it := mkEntry ip branch_target flag current_cycle]>
               (basic_btb s)
        /\ ((find_if_tag (basic_btb s) ip (set_begin_of ip)
               (Z.to_nat BASIC_BTB_WAYS) = Some it
             /\ exists e, arr_get (basic_btb s) it = Some e
                          /\ flag = always_taken e && truthy taken)
            \/ find_if_tag (basic_btb s) ip (set_begin_of ip)
                 (Z.to_nat BASIC_BTB_WAYS) = Some (set_end_of ip))).
Proof.
  intros Hwf. destruct (branch_type_cases bt) as [-> | [Hind | Hbt]].
  - rewrite update_btb_return. intros H. left. split; [reflexivity|].
    apply bind_Some in H as ([call_ip s1] & Hpop & H).
    apply pop_basic_btb_ras_inv in Hpop as (r & i & -> & _).
    destruct (_ <=? 10).
    + apply bind_Some in H as (c & _ & H). injection H as <-. reflexivity.
    + injection H as <-. reflexivity.
  - rewrite (update_btb_indirect _ _ _ _ _ _ Hind). intros H. left.
    split; [destruct bt; try discriminate; reflexivity|].
    apply bind_Some in H as (t & _ & H). injection H as <-. reflexivity.
  - intros H. right.
    apply (update_btb_uses_btb_inv _ _ _ _ _ _ _ Hbt) in H
      as (b & it & e & Hentry & He & ->).
    apply update_btb_entry_inv in Hentry
      as [(-> & Hfind & _) | (e' & Hmiss & _ & _ & _ & He' & ->)].
    + exists it, (always_taken e && truthy taken). split; [exact Hbt|].
      split; [apply arr_get_lt in He; exact He|]. split; [reflexivity|].
      left. split; [exact Hfind|]. exists e. auto.
    + exists it, (always_taken e && truthy taken). split; [exact Hbt|].
      split; [apply arr_get_lt in He'; exact He'|].
      split; [simpl; apply list_insert_insert_eq|]. right. exact Hmiss.
Qed.

(** One call keeps a cleared flag cleared, unless it assigns the slot to
    another address. *)
Lemma tracked_not_taken_step s ip r c s' :
  wf s -> tracked_not_taken s ip r -> step s c = Some s' ->
  tracked_not_taken s' ip r \/ slot_tag s' r <> Some ip.
Proof.
  intros Hwf (Hfind & Hne & e & He & Hflag) Hstep.
  pose proof (wf_btb s Hwf) as Hlen.
  pose proof (set_in_array (basic_btb s) Hlen ip) as [H0 H1].
  destruct (find_in_set (basic_btb s) Hlen ip) as (r' & Hr' & Hrange & Hbefore & _).
  assert (r' = r) as -> by congruence.
  assert (Hkeep : forall it new,
            0 <= it < Z.of_nat (length (basic_btb s)) ->
            (it = r -> ip_tag new = ip /\ always_taken new = false) ->
            (it <> r -> ip_tag new <> ip) ->
            basic_btb s' = <[Z.to_nat it := new]> (basic_btb s) ->
            tracked_not_taken s' ip r).
  { intros it new Hit Hsame Hdiff Hb. unfold tracked_not_taken. rewrite Hb.
    split; [|split; [exact Hne|]].
    - destruct (decide (it = r)) as [-> | Hitr].
      + apply (find_if_tag_first _ _ _ _ r new).
        * exact H0.
        * rewrite length_insert. exact H1.
        * unfold set_end_of in *. change (Z.of_nat (Z.to_nat BASIC_BTB_WAYS))
            with BASIC_BTB_WAYS. lia.
        * apply arr_get_insert_eq. exact Hit.
        * destruct (Hsame eq_refl) as [Htag _]. exact Htag.
        * intros j ej Hj. rewrite arr_get_insert_ne by lia. apply Hbefore. exact Hj.
      + apply (find_if_tag_first _ _ _ _ r e).
        * exact H0.
        * rewrite length_insert. exact H1.
        * unfold set_end_of in *. change (Z.of_nat (Z.to_nat BASIC_BTB_WAYS))
            with BASIC_BTB_WAYS. lia.
        * rewrite arr_get_insert_ne by lia. exact He.
        * destruct (find_if_tag_spec (basic_btb s) ip (Z.to_nat BASIC_BTB_WAYS)
                      (set_begin_of ip) H0 H1) as (r2 & Hr2 & _ & _ & Hat).
          assert (r2 = r) as -> by congruence.
          destruct Hat as (e2 & He2 & Htag);
            [unfold set_end_of in *;
             change (Z.of_nat (Z.to_nat BASIC_BTB_WAYS)) with BASIC_BTB_WAYS; lia|].
          congruence.
        * intros j ej Hj Hej. destruct (decide (j = it)) as [-> | Hji].
          -- rewrite arr_get_insert_eq in Hej by exact Hit.
             injection Hej as <-. apply Hdiff. exact Hitr.
          -- rewrite arr_get_insert_ne in Hej by lia. apply (Hbefore j ej Hj Hej).
    - destruct (decide (it = r)) as [-> | Hitr].
      + exists new. rewrite arr_get_insert_eq by exact Hit.
        split; [reflexivity | destruct (Hsame eq_refl) as [_ Hf]; exact Hf].
      + exists e. rewrite arr_get_insert_ne by lia. auto. }
  assert (Hsame_table : basic_btb s' = basic_btb s -> tracked_not_taken s' ip r).
  { intros Hb. unfold tracked_not_taken. rewrite Hb. split; [exact Hfind|].
    split; [exact Hne|]. exists e. auto. }
  assert (Htag_e : ip_tag e = ip).
  { destruct (find_if_tag_spec (basic_btb s) ip (Z.to_nat BASIC_BTB_WAYS)
                (set_begin_of ip) H0 H1) as (r2 & Hr2 & _ & _ & Hat).
    assert (r2 = r) as -> by congruence.
    destruct Hat as (e2 & He2 & Htag);
      [unfold set_end_of in *;
       change (Z.of_nat (Z.to_nat BASIC_BTB_WAYS)) with BASIC_BTB_WAYS; lia|].
    congruence. }
  destruct c as [cy ip2 bt | cy ip2 tgt tk bt]; simpl in Hstep.
  - apply fmap_Some in Hstep as ([res s1] & Hp & ->). simpl. left.
    destruct (btb_prediction_cases s cy ip2 bt Hwf) as (s1' & Hs1 & Hcases).
    destruct (prediction_push s ip2 bt Hwf) as (s1'' & Hs1'' & _ & Hb & _).
    assert (s1'' = s1') as -> by congruence.
    destruct Hcases as [(_ & t1 & t2 & _ & _ & Hpred)
                       | [(_ & t & _ & Hpred)
                         | [(_ & _ & Hpred)
                           | (_ & r2 & e2 & Hr2 & _ & He2 & Htag2 & Hpred)]]];
      rewrite Hpred in Hp; injection Hp as _ <-;
      try (apply Hsame_table; exact Hb).
    apply (Hkeep r2 (refresh e2 cy)).
    + apply arr_get_lt in He2. exact He2.
    + intros ->. assert (e2 = e) as -> by congruence. auto.
    + intros Hr2r Htag. simpl in Htag. apply Hr2r.
      assert (ip2 = ip) as -> by congruence. congruence.
    + reflexivity.
  - destruct (update_btb_table s cy ip2 tgt tk bt s' Hwf Hstep)
      as [(_ & Hb) | (it & flag & _ & Hit & Hb & Hwhich)].
    + left. apply Hsame_table. exact Hb.
    + destruct (decide (ip2 = ip)) as [-> | Hip].
      * left. destruct Hwhich as [(Hfind2 & e2 & He2 & ->) | Hmiss];
          [|congruence].
        assert (it = r) as -> by congruence.
        assert (e2 = e) as -> by congruence.
        eapply Hkeep; [exact Hit | | | exact Hb].
        -- intros _. simpl. rewrite Hflag. auto.
        -- intros Hrr. contradiction.
      * destruct (decide (it = r)) as [-> | Hitr].
        -- right. unfold slot_tag. rewrite Hb, arr_get_insert_eq by exact Hit.
           simpl. congruence.
        -- left. eapply Hkeep; [exact Hit | | | exact Hb].
           ++ intros Hrr. contradiction.
           ++ intros _. simpl. exact Hip.
Qed.

(** The flag stays cleared along every sequence of calls during which the
    slot keeps the tag of the address. *)
Lemma tracked_not_taken_run ip r cs : forall s s',
  wf s -> tracked_not_taken s ip r -> run s cs = Some s' ->
  (forall cs1 cs2 s1, cs = cs1 ++ cs2 -> run s cs1 = Some s1 ->
     slot_tag s1 r = Some ip) ->
  tracked_not_taken s' ip r.
Proof.
  induction cs as [|c cs IH]; intros s s' Hwf Htr Hrun Hkept.
  - injection Hrun as <-. exact Htr.
  - simpl in Hrun. apply bind_Some in Hrun as (s1 & Hstep & Hrun).
    destruct (tracked_not_taken_step s ip r c s1 Hwf Htr Hstep) as [Htr1 | Hlost].
    + apply (IH s1 s' (step_wf _ _ _ Hwf Hstep) Htr1 Hrun).
      intros cs1 cs2 s2 Hcs Hrun1. apply (Hkept (c :: cs1) cs2 s2).
      * rewrite Hcs. reflexivity.
      * simpl. rewrite Hstep. exact Hrun1.
    + exfalso. apply Hlost. apply (Hkept [c] cs s1); [reflexivity|].
      simpl. rewrite Hstep. reflexivity.
Qed.

(** While the address is tracked with the flag cleared, it is predicted
    with the flag cleared. *)
Lemma tracked_not_taken_predicted s ip r current_cycle bt :
  wf s -> uses_btb bt = true -> tracked_not_taken s ip r ->
  exists t, fst <$> btb_prediction s current_cycle ip bt = Some (t, 0).
Proof.
  intros Hwf Hbt (Hfind & Hne & e & He & Hflag).
  destruct (btb_prediction_hit_eq s current_cycle ip bt r Hwf Hbt Hfind Hne)
    as (e' & s1 & He' & _ & _ & _ & Hpred).
  assert (e' = e) as -> by congruence.
  exists (target e). rewrite Hpred, Hflag. reflexivity.
Qed.

(** C3. The claim does not hold of the program. Address 4 is allocated in
    set 1 by a taken update and predicted with the flag set; one not-taken
    update clears the flag, and the next prediction reports it cleared. Then
    a not-taken update for address 1, of set 0, misses, allocates nothing and
    assigns through [set_end] of set 0, which is way 0 of set 1: the entry
    of address 4 is overwritten without any eviction, and the next prediction
    for address 4 misses and reports the flag set again. *)
Theorem always_taken_reported_again_without_reallocation :
  let allocate := Update 10 4 8192 1 BRANCH_CONDITIONAL in
  let not_taken := Update 12 4 8192 0 BRANCH_CONDITIONAL in
  let other := Update 14 1 0 0 BRANCH_CONDITIONAL in
  (s ← run initialize_btb [allocate];
   fst <$> btb_prediction s 11 4 BRANCH_CONDITIONAL) = Some (8192, 1)
  /\ (s ← run initialize_btb [allocate; not_taken];
      fst <$> btb_prediction s 13 4 BRANCH_CONDITIONAL) = Some (8192, 0)
  /\ (s ← run initialize_btb [allocate; not_taken];
      arr_get (basic_btb s) (set_begin_of 4)) = Some (mkEntry 4 8192 false 12)
  /\ set_end_of 1 = set_begin_of 4
  /\ (s ← run initialize_btb [allocate; not_taken];
      snd <$> update_btb_entry (basic_btb s) 1 0 0) = Some (set_end_of 1)
  /\ (s ← run initialize_btb [allocate; not_taken; other];
      arr_get (basic_btb s) (set_begin_of 4)) = Some (mkEntry 1 0 false 14)
  /\ (s ← run initialize_btb [allocate; not_taken; other];
      fst <$> btb_prediction s 15 4 BRANCH_CONDITIONAL) = Some (0, 1).
Proof. vm_compute. repeat split. Qed.

(** ** The RAS index *)

(** C9. The RAS index is 0 after [initialize_btb]; from a state whose index
    lies in [[0, BASIC_BTB_RAS_SIZE)], a push and a pop both succeed and leave
    the index in that range; a pop at index 0 wraps to
    [BASIC_BTB_RAS_SIZE - 1] and a push at [BASIC_BTB_RAS_SIZE - 1] wraps to
    0. Hence the index is in range in every state that a sequence of
    predictions and updates reaches from the initial one. *)
Theorem ras_index_in_range :
  basic_btb_ras_index initialize_btb = 0
  /\ ras_ok initialize_btb
  /\ (forall s, ras_ok s ->
       (forall ip, exists s',
           push_basic_btb_ras s ip = Some s'
           /\ 0 <= basic_btb_ras_index s' < BASIC_BTB_RAS_SIZE
           /\ length (basic_btb_ras s') = length (basic_btb_ras s)
           /\ (basic_btb_ras_index s = BASIC_BTB_RAS_SIZE - 1 ->
               basic_btb_ras_index s' = 0)
           /\ (basic_btb_ras_index s < BASIC_BTB_RAS_SIZE - 1 ->
               basic_btb_ras_index s' = basic_btb_ras_index s + 1))
       /\ (exists x s',
           pop_basic_btb_ras s = Some (x, s')
           /\ 0 <= basic_btb_ras_index s' < BASIC_BTB_RAS_SIZE
           /\ length (basic_btb_ras s') = length (basic_btb_ras s)
           /\ (basic_btb_ras_index s = 0 ->
               basic_btb_ras_index s' = BASIC_BTB_RAS_SIZE - 1)
           /\ (0 < basic_btb_ras_index s ->
               basic_btb_ras_index s' = basic_btb_ras_index s - 1)))
  /\ (forall cs s',
        run initialize_btb cs = Some s' ->
        0 <= basic_btb_ras_index s' < BASIC_BTB_RAS_SIZE).
Proof.
  split; [reflexivity|]. split; [apply wf_ras_ok, initialize_btb_wf|].
  split; [|intros cs s' Hrun;
           apply (wf_ras_index s' (run_wf cs _ _ initialize_btb_wf Hrun))].
  intros s Hok. split.
  - intros ip. eexists. split; [apply (push_basic_btb_ras_eq s ip Hok)|].
    destruct Hok as [Hlen Hidx]. simpl. unfold BASIC_BTB_RAS_SIZE in *.
    rewrite length_insert.
    split; [apply Z.mod_pos_bound; lia|]. split; [reflexivity|]. split.
    + intros ->. reflexivity.
    + intros Hlt. apply Z.mod_small. lia.
  - destruct (pop_basic_btb_ras_eq s Hok) as (x & _ & Hpop).
    exists x. eexists. split; [exact Hpop|].
    destruct Hok as [Hlen Hidx]. simpl. unfold BASIC_BTB_RAS_SIZE in *.
    rewrite length_insert.
    split; [apply Z.mod_pos_bound; lia|]. split; [reflexivity|]. split.
    + intros ->. reflexivity.
    + intros Hlt. apply Z.mod_small. lia.
Qed.

Lemma ras_index_in_range_witness :
  exists s',
    push_basic_btb_ras initialize_btb 4096 = Some s'
    /\ 0 <= basic_btb_ras_index s' < BASIC_BTB_RAS_SIZE.
Proof.
  destruct ras_index_in_range as (_ & Hok & Hstep & _).
  destruct (Hstep initialize_btb Hok) as [Hpush _].
  destruct (Hpush 4096) as (s' & Hs' & Hr & _).
  exists s'. split; assumption.
Defined.

(** * Further properties *)

(** ** The return address stack as a stack *)

(** X1. A push followed by a peek and a pop: the peek and the pop both give
    the pushed address, the pop brings the index back to where it was, and it
    leaves 0 in the slot the push wrote; no other slot and nothing outside
    the RAS is changed. *)
Theorem ras_push_peek_pop s ip :
  ras_ok s ->
  exists s1 s2,
    push_basic_btb_ras s ip = Some s1
    /\ peek_basic_btb_ras s1 = Some ip
    /\ pop_basic_btb_ras s1 = Some (ip, s2)
    /\ basic_btb_ras_index s2 = basic_btb_ras_index s
    /\ arr_get (basic_btb_ras s2) (basic_btb_ras_index s1) = Some 0
    /\ (forall j, j <> basic_btb_ras_index s1 ->
          arr_get (basic_btb_ras s2) j = arr_get (basic_btb_ras s) j)
    /\ s2 = set_ras s (basic_btb_ras s2) (basic_btb_ras_index s).
Proof.
  intros Hok.
  pose proof (push_basic_btb_ras_eq s ip Hok) as Hpush. simpl in Hpush.
  pose proof (push_basic_btb_ras_ok s ip _ Hok Hpush) as Hok1.
  destruct (pop_basic_btb_ras_eq _ Hok1) as (x & Hx & Hpop).
  destruct Hok as [Hl Hi].
  set (i1 := (basic_btb_ras_index s + 1) mod BASIC_BTB_RAS_SIZE) in *.
  assert (Hi1 : 0 <= i1 < Z.of_nat (length (basic_btb_ras s))).
  { rewrite Hl. subst i1. unfold BASIC_BTB_RAS_SIZE.
    pose proof (Z.mod_pos_bound (basic_btb_ras_index s + 1) 64). lia. }
  simpl in Hx, Hpop. rewrite arr_get_insert_eq in Hx by exact Hi1.
  injection Hx as <-.
  eexists _, _. split; [exact Hpush|]. split.
  { unfold peek_basic_btb_ras. simpl. apply arr_get_insert_eq. exact Hi1. }
  split; [exact Hpop|]. simpl.
  assert (Hback : (i1 - 1) mod BASIC_BTB_RAS_SIZE = basic_btb_ras_index s).
  { subst i1. zmod. }
  split; [exact Hback|]. split.
  { apply arr_get_insert_eq. rewrite length_insert. exact Hi1. }
  split.
  { intros j Hj. rewrite !arr_get_insert_ne by lia. reflexivity. }
  unfold set_ras. simpl. rewrite Hback. reflexivity.
Qed.

Lemma ras_push_peek_pop_witness :
  exists s1 s2,
    push_basic_btb_ras initialize_btb 4096 = Some s1
    /\ peek_basic_btb_ras s1 = Some 4096
    /\ pop_basic_btb_ras s1 = Some (4096, s2)
    /\ basic_btb_ras_index s2 = 0.
Proof.
  destruct (ras_push_peek_pop initialize_btb 4096)
    as (s1 & s2 & H1 & H2 & H3 & H4 & _).
  - split; vm_compute; try reflexivity. split; congruence.
  - exists s1, s2. auto.
Defined.

(** Popping [n] times, with [n] at most the capacity: where the index ends,
    which slots are cleared, and that nothing else changes. *)
Lemma pop_n_clears n : forall s,
  ras_ok s -> (n <= Z.to_nat BASIC_BTB_RAS_SIZE)%nat ->
  exists xs s',
    pop_n s n = Some (xs, s')
    /\ ras_ok s'
    /\ basic_btb_ras_index s'
       = (basic_btb_ras_index s - Z.of_nat n) mod BASIC_BTB_RAS_SIZE
    /\ (forall j, (j < n)%nat ->
          arr_get (basic_btb_ras s')
            ((basic_btb_ras_index s - Z.of_nat j) mod BASIC_BTB_RAS_SIZE) = Some 0)
    /\ (forall p,
          (forall j, (j < n)%nat ->
             p <> (basic_btb_ras_index s - Z.of_nat j) mod BASIC_BTB_RAS_SIZE) ->
          arr_get (basic_btb_ras s') p = arr_get (basic_btb_ras s) p)
    /\ s' = set_ras s (basic_btb_ras s') (basic_btb_ras_index s').
Proof.
  induction n as [|n IH]; intros s Hok Hn.
  - exists [], s. split; [reflexivity|]. split; [exact Hok|]. split.
    { destruct Hok as [_ Hi]. simpl. rewrite Z.sub_0_r, Z.mod_small; [reflexivity|lia]. }
    split; [intros j Hj; lia|]. split; [reflexivity|]. destruct s; reflexivity.
  - destruct (pop_basic_btb_ras_eq s Hok) as (x & Hx & Hpop).
    pose proof (pop_basic_btb_ras_ok s _ _ Hok Hpop) as Hok1.
    destruct (IH _ Hok1 ltac:(lia)) as (xs & s' & Hxs & Hok' & Hidx & Hzero & Hframe & Hs').
    exists (x :: xs), s'. simpl pop_n. rewrite Hpop. cbn [mbind option_bind].
    rewrite Hxs. cbn [mbind option_bind]. split; [reflexivity|].
    split; [exact Hok'|]. destruct Hok as [Hl Hi]. simpl in Hidx, Hzero, Hframe.
    assert (Hin : 0 <= basic_btb_ras_index s < Z.of_nat (length (basic_btb_ras s)))
      by (rewrite Hl; unfold BASIC_BTB_RAS_SIZE in *; lia).
    split; [rewrite Hidx; zmod|]. split; [|split].
    + intros [|j] Hj.
      * rewrite Z.sub_0_r, Z.mod_small by (unfold BASIC_BTB_RAS_SIZE in *; lia).
        rewrite Hframe by (intros j Hj'; zmod).
        apply arr_get_insert_eq. exact Hin.
      * replace ((basic_btb_ras_index s - Z.of_nat (S j)) mod BASIC_BTB_RAS_SIZE)
          with (((basic_btb_ras_index s - 1) mod BASIC_BTB_RAS_SIZE - Z.of_nat j)
                  mod BASIC_BTB_RAS_SIZE) by zmod.
        apply Hzero. lia.
    + intros p Hp. rewrite Hframe.
      * apply arr_get_insert_ne; [lia|]. intros Heq.
        apply (Hp 0%nat); [lia|]. subst p. zmod.
      * intros j Hj Heq. apply (Hp (S j)); [lia|]. subst p. zmod.
    + rewrite Hs'. reflexivity.
Qed.

(** X2. Last in, first out within the capacity: after pushing at most
    [BASIC_BTB_RAS_SIZE] addresses, as many pops return them newest first,
    bring the index back to where it was, and leave 0 in every slot the
    pushes wrote; the slots they did not write are as before. *)
Theorem ras_lifo_within_capacity s ips :
  ras_ok s -> (length ips <= Z.to_nat BASIC_BTB_RAS_SIZE)%nat ->
  exists s1 s2,
    push_all s ips = Some s1
    /\ pop_n s1 (length ips) = Some (rev ips, s2)
    /\ basic_btb_ras_index s2 = basic_btb_ras_index s
    /\ (forall k, (k < length ips)%nat ->
          arr_get (basic_btb_ras s2)
            ((basic_btb_ras_index s + 1 + Z.of_nat k) mod BASIC_BTB_RAS_SIZE)
          = Some 0)
    /\ (forall p,
          (forall k, (k < length ips)%nat ->
             p <> (basic_btb_ras_index s + 1 + Z.of_nat k) mod BASIC_BTB_RAS_SIZE) ->
          arr_get (basic_btb_ras s2) p = arr_get (basic_btb_ras s) p).
Proof.
  intros Hok Hlen.
  destruct (push_all_writes ips s Hok) as (s1 & Hpush & Hok1 & Hidx1 & Hnew & Hold).
  destruct (pop_n_reads (length ips) s1 Hok1 Hlen) as (xs & s2 & Hpop & Hxs & Hread).
  destruct (pop_n_clears (length ips) s1 Hok1 Hlen)
    as (xs' & s2' & Hpop' & _ & Hidx2 & Hzero & Hframe & _).
  assert (xs' = xs /\ s2' = s2) as [-> ->] by (split; congruence).
  destruct Hok as [Hl Hi].
  exists s1, s2. split; [exact Hpush|]. split; [|split; [|split]].
  - rewrite Hpop. do 2 f_equal. apply list_eq. intros j.
    destruct (decide (j < length ips)%nat) as [Hj|Hj].
    + rewrite (Hread j Hj). apply Hnew; lia.
    + rewrite !lookup_ge_None_2; [reflexivity | rewrite length_rev; lia | lia].
  - rewrite Hidx2, Hidx1. zmod.
  - intros k Hk.
    replace ((basic_btb_ras_index s + 1 + Z.of_nat k) mod BASIC_BTB_RAS_SIZE)
      with ((basic_btb_ras_index s1 - Z.of_nat (length ips - 1 - k))
              mod BASIC_BTB_RAS_SIZE) by (rewrite Hidx1; zmod).
    apply Hzero. lia.
  - intros p Hp.
    assert (Hp' : forall j, (j < length ips)%nat ->
              p <> (basic_btb_ras_index s1 - Z.of_nat j) mod BASIC_BTB_RAS_SIZE).
    { intros j Hj Heq. apply (Hp (length ips - 1 - j)%nat); [lia|].
      subst p. rewrite Hidx1. zmod. }
    rewrite (Hframe p Hp'). apply Hold. exact Hp'.
Qed.

Lemma ras_lifo_within_capacity_witness :
  exists s1 s2,
    push_all initialize_btb [4096; 8192; 12288] = Some s1
    /\ pop_n s1 3 = Some ([12288; 8192; 4096], s2)
    /\ basic_btb_ras_index s2 = 0.
Proof.
  destruct (ras_lifo_within_capacity initialize_btb [4096; 8192; 12288])
    as (s1 & s2 & H1 & H2 & H3 & _).
  - split; vm_compute; try reflexivity. split; congruence.
  - vm_compute. lia.
  - exists s1, s2. auto.
Defined.

(** X3. Popping a stack that holds only zeros, the initial one for one,
    returns 0 each time, for any number of pops: the stack is as before and
    only the index moves, wrapping below 0. Nothing signals that the stack
    is empty. *)
Theorem ras_pop_empty n : forall s,
  ras_ok s ->
  basic_btb_ras s = replicate (Z.to_nat BASIC_BTB_RAS_SIZE) 0 ->
  pop_n s n
  = Some (replicate n 0,
          set_ras s (basic_btb_ras s)
            ((basic_btb_ras_index s - Z.of_nat n) mod BASIC_BTB_RAS_SIZE)).
Proof.
  induction n as [|n IH]; intros s Hok Hzero.
  - simpl. destruct Hok as [_ Hi]. rewrite Z.sub_0_r, Z.mod_small by lia.
    destruct s; reflexivity.
  - destruct (pop_basic_btb_ras_eq s Hok) as (x & Hx & Hpop).
    pose proof (pop_basic_btb_ras_ok s _ _ Hok Hpop) as Hok1.
    assert (Hx0 : x = 0).
    { rewrite Hzero in Hx. apply arr_get_Some in Hx as [_ Hx].
      apply lookup_replicate in Hx as [-> _]. reflexivity. }
    subst x.
    assert (Hsame : <[Z.to_nat (basic_btb_ras_index s) := 0]> (basic_btb_ras s)
                    = basic_btb_ras s).
    { apply list_insert_id. apply arr_get_Some in Hx as [_ Hx]. exact Hx. }
    rewrite Hsame in Hpop, Hok1.
    simpl pop_n. rewrite Hpop. cbn [mbind option_bind].
    rewrite (IH _ Hok1 Hzero). cbn [mbind option_bind]. simpl.
    do 3 f_equal. destruct Hok as [_ Hi]. zmod.
Qed.

Lemma ras_pop_empty_witness :
  pop_n initialize_btb 100
  = Some (replicate 100 0,
          set_ras initialize_btb (basic_btb_ras initialize_btb) 28).
Proof.
  rewrite (ras_pop_empty 100 initialize_btb).
  - reflexivity.
  - split; vm_compute; try reflexivity. split; congruence.
  - reflexivity.
Defined.

(** ** Calls and returns *)

(** The RAS and the trackers after a prediction: those of the state the
    push, if any, leaves. *)
Lemma btb_prediction_ras s current_cycle ip bt :
  wf s ->
  exists r s' s1,
    btb_prediction s current_cycle ip bt = Some (r, s')
    /\ (if is_ras_push bt then push_basic_btb_ras s ip else Some s) = Some s1
    /\ wf s'
    /\ basic_btb_ras s' = basic_btb_ras s1
    /\ basic_btb_ras_index s' = basic_btb_ras_index s1
    /\ basic_btb_call_instr_sizes s' = basic_btb_call_instr_sizes s.
Proof.
  intros Hwf.
  destruct (btb_prediction_cases s current_cycle ip bt Hwf) as (s1 & Hs1 & Hcases).
  destruct (prediction_push s ip bt Hwf) as (s1' & Hs1' & Hwf1 & _ & _ & _ & Hc & _).
  assert (s1' = s1) as -> by congruence.
  destruct Hcases as [(_ & tgt & size & _ & _ & Hpred)
                     | [(_ & t & _ & Hpred)
                       | [(_ & _ & Hpred)
                         | (_ & r' & e & _ & _ & He & _ & Hpred)]]];
    eexists _, _, s1; (split; [exact Hpred|]); (split; [exact Hs1|]);
    (split; [|auto]);
    first [exact Hwf1 | apply (btb_prediction_wf _ _ _ _ _ _ Hwf Hpred)].
Qed.

Lemma btb_prediction_return_eq s current_cycle ip tgt size :
  peek_basic_btb_ras s = Some tgt ->
  basic_btb_get_call_size s tgt = Some size ->
  btb_prediction s current_cycle ip BRANCH_RETURN
  = Some ((u64 (tgt + size), 1), s).
Proof.
  intros Hpeek Hsize. unfold btb_prediction.
  cbn [is_ras_push bool_decide decide_rel orb mbind option_bind]. simpl.
  rewrite Hpeek. cbn [mbind option_bind]. rewrite Hsize. reflexivity.
Qed.

(** X4. A return predicted after a call: the prediction of a call at [ip]
    pushes [ip], and a return predicted next gets the target
    [ip + size] modulo [2^64], [size] being the tracker of [ip], with the
    always-taken flag set; predicting the return changes nothing. *)
Theorem call_then_return_prediction s current_cycle ip bt current_cycle' ip' :
  wf s -> is_ras_push bt = true ->
  exists r s1 size,
    btb_prediction s current_cycle ip bt = Some (r, s1)
    /\ peek_basic_btb_ras s1 = Some ip
    /\ basic_btb_get_call_size s ip = Some size
    /\ btb_prediction s1 current_cycle' ip' BRANCH_RETURN
       = Some ((u64 (ip + size), 1), s1).
Proof.
  intros Hwf Hbt.
  destruct (btb_prediction_ras s current_cycle ip bt Hwf)
    as (r & s1 & sp & Hpred & Hsp & Hwf1 & Hras & Hidx & Hsizes).
  rewrite Hbt in Hsp.
  rewrite (push_basic_btb_ras_eq s ip (wf_ras_ok s Hwf)) in Hsp.
  injection Hsp as <-. simpl in Hras, Hidx.
  assert (Hin : 0 <= (basic_btb_ras_index s + 1) mod BASIC_BTB_RAS_SIZE
                < Z.of_nat (length (basic_btb_ras s))).
  { rewrite (wf_ras s Hwf). unfold BASIC_BTB_RAS_SIZE.
    pose proof (Z.mod_pos_bound (basic_btb_ras_index s + 1) 64). lia. }
  assert (Hpeek : peek_basic_btb_ras s1 = Some ip).
  { unfold peek_basic_btb_ras. rewrite Hras, Hidx.
    apply arr_get_insert_eq. exact Hin. }
  destruct (arr_get_is_Some (basic_btb_call_instr_sizes s)
              (basic_btb_call_size_tracker_hash ip)) as [size Hsize].
  { rewrite (wf_call_sizes s Hwf), basic_btb_call_size_tracker_hash_mod.
    unfold BASIC_BTB_CALL_INSTR_SIZE_TRACKERS.
    pose proof (Z.mod_pos_bound ip 1024). lia. }
  exists r, s1, size. split; [exact Hpred|]. split; [exact Hpeek|].
  split; [exact Hsize|].
  apply btb_prediction_return_eq; [exact Hpeek|].
  unfold basic_btb_get_call_size. rewrite Hsizes. exact Hsize.
Qed.

Lemma call_then_return_prediction_witness :
  exists r s1,
    btb_prediction initialize_btb 7 4096 BRANCH_DIRECT_CALL = Some (r, s1)
    /\ btb_prediction s1 8 4200 BRANCH_RETURN = Some ((4100, 1), s1).
Proof.
  destruct (call_then_return_prediction initialize_btb 7 4096 BRANCH_DIRECT_CALL
              8 4200 initialize_btb_wf eq_refl)
    as (r & s1 & size & Hp & _ & Hsize & Hret).
  exists r, s1. split; [exact Hp|].
  vm_compute in Hsize. injection Hsize as <-. exact Hret.
Defined.

(** The update for a return, from the state before it. *)
Lemma update_btb_return_eq s current_cycle ip branch_target taken :
  wf s ->
  exists call_ip,
    peek_basic_btb_ras s = Some call_ip
    /\ update_btb s current_cycle ip branch_target taken BRANCH_RETURN
       = Some (let popped :=
                 set_ras s (<[Z.to_nat (basic_btb_ras_index s) := 0]> (basic_btb_ras s))
                         ((basic_btb_ras_index s - 1) mod BASIC_BTB_RAS_SIZE) in
               if Z.abs (call_ip - branch_target) <=? 10 then
                 set_call_sizes popped
                   (<[Z.to_nat (call_ip mod BASIC_BTB_CALL_INSTR_SIZE_TRACKERS) :=
                        Z.abs (call_ip - branch_target)]>
                      (basic_btb_call_instr_sizes s))
               else popped).
Proof.
  intros Hwf.
  destruct (pop_basic_btb_ras_eq s (wf_ras_ok s Hwf)) as (call_ip & Hx & Hpop).
  exists call_ip. split; [exact Hx|].
  rewrite update_btb_return, Hpop. cbn [mbind option_bind].
  rewrite basic_btb_abs_addr_dist_abs, basic_btb_call_size_tracker_hash_mod.
  cbv zeta. destruct (_ <=? 10); [|reflexivity].
  rewrite arr_set_Some; [reflexivity|]. simpl.
  rewrite (wf_call_sizes s Hwf). unfold BASIC_BTB_CALL_INSTR_SIZE_TRACKERS.
  pose proof (Z.mod_pos_bound call_ip 1024). lia.
Qed.

(** X5. The call size is learned in one correction. After a call at [A] is
    predicted and its return resolves to [T] with [|A - T| <= 10], the
    tracker of [A] holds [|A - T|]; when the call at [A] is predicted again,
    the return predicted after it gets the target [A + |A - T|] modulo
    [2^64]. That is [T] when the return lands after the call; the tracker
    keeps the size of the distance, not its direction. *)
Theorem call_size_learned
    s bt A T c1 c2 c3 c4 ip_ret taken ip_ret' :
  wf s -> is_ras_push bt = true -> Z.abs (A - T) <= 10 ->
  exists r1 s1 s2 r3 s3,
    btb_prediction s c1 A bt = Some (r1, s1)
    /\ update_btb s1 c2 ip_ret T taken BRANCH_RETURN = Some s2
    /\ basic_btb_get_call_size s2 A = Some (Z.abs (A - T))
    /\ btb_prediction s2 c3 A bt = Some (r3, s3)
    /\ btb_prediction s3 c4 ip_ret' BRANCH_RETURN
       = Some ((u64 (A + Z.abs (A - T)), 1), s3)
    /\ (0 <= A <= T -> T < 2 ^ 64 -> u64 (A + Z.abs (A - T)) = T).
Proof.
  intros Hwf Hbt Hdist.
  destruct (btb_prediction_ras s c1 A bt Hwf)
    as (r1 & s1 & sp & Hp1 & Hsp & Hwf1 & Hras & Hidx & Hsizes).
  rewrite Hbt in Hsp.
  rewrite (push_basic_btb_ras_eq s A (wf_ras_ok s Hwf)) in Hsp.
  injection Hsp as <-. simpl in Hras, Hidx.
  assert (Hin : 0 <= (basic_btb_ras_index s + 1) mod BASIC_BTB_RAS_SIZE
                < Z.of_nat (length (basic_btb_ras s))).
  { rewrite (wf_ras s Hwf). unfold BASIC_BTB_RAS_SIZE.
    pose proof (Z.mod_pos_bound (basic_btb_ras_index s + 1) 64). lia. }
  destruct (update_btb_return_eq s1 c2 ip_ret T taken Hwf1) as (call_ip & Hpeek & Hu).
  assert (call_ip = A) as ->.
  { unfold peek_basic_btb_ras in Hpeek. rewrite Hras, Hidx in Hpeek.
    rewrite arr_get_insert_eq in Hpeek by exact Hin. congruence. }
  cbv zeta in Hu. destruct (Z.leb_spec (Z.abs (A - T)) 10) as [_|Hgt]; [|lia].
  pose proof (update_btb_wf _ _ _ _ _ _ _ Hwf1 Hu) as Hwf2.
  assert (Hslot : 0 <= A mod BASIC_BTB_CALL_INSTR_SIZE_TRACKERS
                  < Z.of_nat (length (basic_btb_call_instr_sizes s1))).
  { rewrite (wf_call_sizes s1 Hwf1). unfold BASIC_BTB_CALL_INSTR_SIZE_TRACKERS.
    pose proof (Z.mod_pos_bound A 1024). lia. }
  match type of Hu with _ = Some ?x => remember x as s2 eqn:Es2 end.
  assert (Hsize2 : basic_btb_get_call_size s2 A = Some (Z.abs (A - T))).
  { unfold basic_btb_get_call_size. rewrite basic_btb_call_size_tracker_hash_mod.
    rewrite Es2. simpl. apply arr_get_insert_eq. exact Hslot. }
  clear Es2.
  destruct (btb_prediction_ras s2 c3 A bt Hwf2)
    as (r3 & s3 & sp3 & Hp3 & Hsp3 & Hwf3 & Hras3 & Hidx3 & Hsizes3).
  rewrite Hbt in Hsp3.
  rewrite (push_basic_btb_ras_eq s2 A (wf_ras_ok s2 Hwf2)) in Hsp3.
  injection Hsp3 as <-. simpl in Hras3, Hidx3.
  exists r1, s1, s2, r3, s3. split; [exact Hp1|]. split; [exact Hu|].
  split; [exact Hsize2|]. split; [exact Hp3|]. split.
  - apply btb_prediction_return_eq.
    + unfold peek_basic_btb_ras. rewrite Hras3, Hidx3.
      apply arr_get_insert_eq. rewrite (wf_ras s2 Hwf2). unfold BASIC_BTB_RAS_SIZE.
      pose proof (Z.mod_pos_bound (basic_btb_ras_index s2 + 1) 64). lia.
    + unfold basic_btb_get_call_size in *. rewrite Hsizes3. exact Hsize2.
  - intros HA HT. unfold u64. rewrite Z.abs_neq by lia.
    replace (A + - (A - T)) with T by lia. apply Z.mod_small. lia.
Qed.

Lemma call_size_learned_witness :
  exists r1 s1 s2 r3 s3,
    btb_prediction initialize_btb 1 4096 BRANCH_DIRECT_CALL = Some (r1, s1)
    /\ update_btb s1 2 8000 4101 1 BRANCH_RETURN = Some s2
    /\ basic_btb_get_call_size s2 4096 = Some 5
    /\ btb_prediction s2 3 4096 BRANCH_DIRECT_CALL = Some (r3, s3)
    /\ btb_prediction s3 4 8000 BRANCH_RETURN = Some ((4101, 1), s3).
Proof.
  destruct (call_size_learned initialize_btb BRANCH_DIRECT_CALL 4096 4101
              1 2 3 4 8000 1 8000 initialize_btb_wf eq_refl)
    as (r1 & s1 & s2 & r3 & s3 & H1 & H2 & H3 & H4 & H5 & H6).
  - vm_compute. discriminate.
  - exists r1, s1, s2, r3, s3. rewrite H6 in H5 by lia. auto.
Defined.

(** ** The predictor right after initialisation *)

Lemma arr_get_replicate {A : Type} (n : nat) (x : A) (j : Z) :
  0 <= j < Z.of_nat n -> arr_get (replicate n x) j = Some x.
Proof.
  intros Hj. apply arr_get_Some. split; [lia|].
  apply lookup_replicate. split; [reflexivity | lia].
Qed.

Lemma arr_get_replicate_inv {A : Type} (n : nat) (x y : A) (j : Z) :
  arr_get (replicate n x) j = Some y -> y = x.
Proof.
  intros [_ H]%arr_get_Some. apply lookup_replicate in H as [-> _]. reflexivity.
Qed.

(** X6. Predictions of the freshly initialised predictor, for every address
    and cycle: a return gets target 4 (the empty stack yields address 0, the
    default call size is 4); an indirect branch gets target 0; both with the
    always-taken flag set. A branch served by the target cache misses and
    gets [(0, 1)] unless its address is 0: address 0 matches the tag of the
    empty entries, so it hits one and gets [(0, 0)]. *)
Theorem cold_start_predictions current_cycle ip bt :
  (bt = BRANCH_RETURN ->
   btb_prediction initialize_btb current_cycle ip bt
   = Some ((4, 1), initialize_btb))
  /\ (is_indirect bt = true ->
      fst <$> btb_prediction initialize_btb current_cycle ip bt = Some (0, 1))
  /\ (uses_btb bt = true -> ip <> 0 ->
      fst <$> btb_prediction initialize_btb current_cycle ip bt = Some (0, 1))
  /\ (uses_btb bt = true -> ip = 0 ->
      fst <$> btb_prediction initialize_btb current_cycle ip bt = Some (0, 0)).
Proof.
  split; [|split; [|split]].
  - intros ->. apply (btb_prediction_return_eq initialize_btb current_cycle ip 0 4);
      reflexivity.
  - intros Hind.
    destruct (btb_prediction_cases initialize_btb current_cycle ip bt
                initialize_btb_wf)
      as (s1 & _ & [(-> & _) | [(_ & t & Ht & ->) | [(Hu & _) | (Hu & _)]]]).
    + discriminate Hind.
    + apply arr_get_replicate_inv in Ht. subst t. reflexivity.
    + destruct bt; discriminate.
    + destruct bt; discriminate.
  - intros Hbt Hip.
    destruct (find_in_set (basic_btb initialize_btb)
                (wf_btb _ initialize_btb_wf) ip) as (r & Hr & _ & _ & Hat).
    destruct (decide (r = set_end_of ip)) as [-> | Hne].
    + destruct (btb_prediction_miss_eq initialize_btb current_cycle ip bt
                  initialize_btb_wf Hbt Hr) as (s' & -> & _).
      reflexivity.
    + destruct (Hat Hne) as (e & He & Htag).
      apply arr_get_replicate_inv in He. subst e. simpl in Htag. congruence.
  - intros Hbt ->. revert Hbt.
    destruct bt; intros Hbt; vm_compute in Hbt; try discriminate Hbt;
      vm_compute; reflexivity.
Qed.

Lemma cold_start_predictions_witness :
  btb_prediction initialize_btb 7 4096 BRANCH_RETURN = Some ((4, 1), initialize_btb)
  /\ fst <$> btb_prediction initialize_btb 7 4096 BRANCH_INDIRECT = Some (0, 1)
  /\ fst <$> btb_prediction initialize_btb 7 4096 BRANCH_CONDITIONAL = Some (0, 1)
  /\ fst <$> btb_prediction initialize_btb 7 0 BRANCH_CONDITIONAL = Some (0, 0).
Proof.
  split; [|split; [|split]].
  - destruct (cold_start_predictions 7 4096 BRANCH_RETURN) as (H & _).
    apply H. reflexivity.
  - destruct (cold_start_predictions 7 4096 BRANCH_INDIRECT) as (_ & H & _).
    apply H. reflexivity.
  - destruct (cold_start_predictions 7 4096 BRANCH_CONDITIONAL) as (_ & _ & H & _).
    apply H; [reflexivity | lia].
  - destruct (cold_start_predictions 7 0 BRANCH_CONDITIONAL) as (_ & _ & _ & H).
    apply H; reflexivity.
Defined.

(** ** What an update touches, and when it is defined *)

Lemma update_btb_indirect_eq s current_cycle ip branch_target taken bt :
  wf s -> is_indirect bt = true ->
  update_btb s current_cycle ip branch_target taken bt
  = Some (set_indirect s
            (<[Z.to_nat (Z.lxor (Z.shiftr ip 2) (basic_btb_conditional_history s)
                         mod BASIC_BTB_INDIRECT_SIZE) := branch_target]>
               (basic_btb_indirect s))).
Proof.
  intros Hwf Hind. rewrite (update_btb_indirect _ _ _ _ _ _ Hind).
  rewrite arr_set_Some; [reflexivity|].
  rewrite (wf_indirect s Hwf). unfold BASIC_BTB_INDIRECT_SIZE.
  pose proof (Z.mod_pos_bound
                (Z.lxor (Z.shiftr ip 2) (basic_btb_conditional_history s)) 4096).
  lia.
Qed.

(** X7. What an update leaves alone. An update of a kind served by the
    target cache changes at most one entry of the table, and neither the
    RAS, the call-size trackers nor the indirect table; an update of an
    indirect kind changes one slot of the indirect table and nothing of the
    target cache, the RAS and the trackers; an update for a return changes
    neither the target cache nor the indirect table. *)
Theorem update_btb_frame s current_cycle ip branch_target taken bt s' :
  wf s ->
  update_btb s current_cycle ip branch_target taken bt = Some s' ->
  (uses_btb bt = false -> basic_btb s' = basic_btb s)
  /\ (uses_btb bt = true ->
      exists it, forall j, j <> it ->
        arr_get (basic_btb s') j = arr_get (basic_btb s) j)
  /\ (is_indirect bt = false -> basic_btb_indirect s' = basic_btb_indirect s)
  /\ (is_indirect bt = true ->
      forall j,
        j <> Z.lxor (Z.shiftr ip 2) (basic_btb_conditional_history s)
             mod BASIC_BTB_INDIRECT_SIZE ->
        arr_get (basic_btb_indirect s') j = arr_get (basic_btb_indirect s) j)
  /\ (bt <> BRANCH_RETURN ->
      basic_btb_ras s' = basic_btb_ras s
      /\ basic_btb_ras_index s' = basic_btb_ras_index s
      /\ basic_btb_call_instr_sizes s' = basic_btb_call_instr_sizes s).
Proof.
  intros Hwf Hu.
  destruct (branch_type_cases bt) as [-> | [Hind | Hbt]].
  - destruct (update_btb_return_eq s current_cycle ip branch_target taken Hwf)
      as (call_ip & _ & Heq).
    rewrite Heq in Hu. injection Hu as <-. cbv zeta.
    destruct (_ <=? 10); simpl;
      (split; [reflexivity|]); (split; [discriminate|]);
      (split; [reflexivity|]); (split; [discriminate | congruence]).
  - rewrite (update_btb_indirect_eq _ _ _ _ _ _ Hwf Hind) in Hu.
    injection Hu as <-. simpl.
    split; [reflexivity|].
    split; [intros Hbt; destruct bt; discriminate|].
    split; [congruence|]. split; [|auto].
    intros _ j Hj. apply arr_get_insert_ne; [|auto].
    apply Z.mod_pos_bound. unfold BASIC_BTB_INDIRECT_SIZE. lia.
  - destruct (update_btb_table s current_cycle ip branch_target taken bt s' Hwf Hu)
      as [(Hno & _) | (it & flag & _ & Hit & Hb & _)]; [congruence|].
    apply (update_btb_uses_btb_inv _ _ _ _ _ _ _ Hbt) in Hu
      as (b & it' & e & _ & _ & Hs').
    split; [congruence|]. split.
    { intros _. exists it. intros j Hj. rewrite Hb.
      apply arr_get_insert_ne; [lia | auto]. }
    assert (Hrest : basic_btb_indirect s' = basic_btb_indirect s
                    /\ basic_btb_ras s' = basic_btb_ras s
                    /\ basic_btb_ras_index s' = basic_btb_ras_index s
                    /\ basic_btb_call_instr_sizes s' = basic_btb_call_instr_sizes s).
    { rewrite Hs'. unfold history_after.
      destruct (bool_decide (bt = BRANCH_CONDITIONAL)); simpl; auto. }
    destruct Hrest as (Hi & Hr & Hx & Hc).
    split; [auto|]. split; [|auto].
    intros Hind. destruct bt; discriminate.
Qed.

Lemma update_btb_frame_witness :
  exists s',
    update_btb initialize_btb 7 4096 8192 1 BRANCH_DIRECT_JUMP = Some s'
    /\ basic_btb_indirect s' = basic_btb_indirect initialize_btb
    /\ basic_btb_ras s' = basic_btb_ras initialize_btb
    /\ basic_btb_call_instr_sizes s' = basic_btb_call_instr_sizes initialize_btb.
Proof.
  assert (Hu : update_btb initialize_btb 7 4096 8192 1 BRANCH_DIRECT_JUMP
               = Some (set_btb initialize_btb
                         (<[0%nat := mkEntry 4096 8192 true 7]>
                            (basic_btb initialize_btb))))
    by (vm_compute; reflexivity).
  destruct (update_btb_frame _ _ _ _ _ _ _ initialize_btb_wf Hu)
    as (_ & _ & Hi & _ & Hr).
  destruct Hr as (Hr & _ & Hc); [discriminate|].
  eexists. split; [exact Hu|]. split; [apply Hi; reflexivity|]. split; assumption.
Defined.

(** X8. When an update is defined. From a well-formed state [update_btb]
    makes an access outside its arrays in one case only: the branch is of a
    kind served by the target cache, its address belongs to the last set and
    misses there, and nothing is allocated because the branch was not taken
    or its target is 0. Every other update stays within the arrays. *)
Theorem update_btb_undefined_iff s current_cycle ip branch_target taken bt :
  wf s ->
  update_btb s current_cycle ip branch_target taken bt = None
  <-> uses_btb bt = true
      /\ find_if_tag (basic_btb s) ip (set_begin_of ip) (Z.to_nat BASIC_BTB_WAYS)
         = Some (set_end_of ip)
      /\ (branch_target = 0 \/ taken = 0)
      /\ Z.shiftr ip 2 mod BASIC_BTB_SETS = BASIC_BTB_SETS - 1.
Proof.
  intros Hwf. pose proof (wf_btb s Hwf) as Hlen.
  pose proof (set_begin_of_range ip) as (H0 & H1 & Hset).
  assert (Hmiss_eq :
            uses_btb bt = true ->
            find_if_tag (basic_btb s) ip (set_begin_of ip) (Z.to_nat BASIC_BTB_WAYS)
            = Some (set_end_of ip) ->
            branch_target = 0 \/ taken = 0 ->
            (update_btb s current_cycle ip branch_target taken bt = None
             <-> Z.shiftr ip 2 mod BASIC_BTB_SETS = BASIC_BTB_SETS - 1)).
  { intros Hbt Hmiss Hno.
    rewrite (update_btb_uses_btb _ _ _ _ _ _ Hbt).
    rewrite (update_btb_entry_not_allocated _ _ _ _ Hmiss Hno).
    cbn [mbind option_bind].
    destruct (arr_get (basic_btb s) (set_end_of ip)) as [e|] eqn:He.
    - cbn [mbind option_bind].
      rewrite arr_set_Some by (apply arr_get_lt in He; exact He).
      cbn [mbind option_bind]. split; [discriminate|]. intros Hlast.
      apply arr_get_lt in He. rewrite Hlen in He. unfold set_end_of in He.
      unfold BASIC_BTB_SETS, BASIC_BTB_WAYS in *. lia.
    - split; [|reflexivity]. intros _.
      apply arr_get_None in He. rewrite Hlen in He. unfold set_end_of in He.
      unfold BASIC_BTB_SETS, BASIC_BTB_WAYS in *. lia. }
  split.
  - intros Hnone. destruct (branch_type_cases bt) as [-> | [Hind | Hbt]].
    + destruct (update_btb_return_eq s current_cycle ip branch_target taken Hwf)
        as (call_ip & _ & Heq). congruence.
    + rewrite (update_btb_indirect_eq _ _ _ _ _ _ Hwf Hind) in Hnone. discriminate.
    + destruct (find_in_set (basic_btb s) Hlen ip) as (r & Hr & _).
      destruct (decide (r = set_end_of ip)) as [-> | Hne].
      * destruct (decide (branch_target = 0)) as [Ht | Ht];
          [apply Hmiss_eq in Hnone; auto|].
        destruct (decide (taken = 0)) as [Hk | Hk];
          [apply Hmiss_eq in Hnone; auto|].
        destruct (update_btb_allocating s current_cycle ip branch_target taken bt
                    Hwf Hbt Hr Ht Hk) as (v & ev & _ & _ & _ & _ & Heq).
        congruence.
      * destruct (update_btb_found s current_cycle ip branch_target taken bt r
                    Hwf Hbt Hr Hne) as (e & _ & _ & Heq).
        congruence.
  - intros (Hbt & Hmiss & Hno & Hlast). apply Hmiss_eq; assumption.
Qed.

Lemma update_btb_undefined_iff_witness :
  update_btb initialize_btb 7 4092 0 0 BRANCH_DIRECT_JUMP = None
  /\ update_btb initialize_btb 7 4088 0 0 BRANCH_DIRECT_JUMP <> None.
Proof.
  split.
  - apply (update_btb_undefined_iff initialize_btb 7 4092 0 0 BRANCH_DIRECT_JUMP
             initialize_btb_wf).
    split; [reflexivity|]. split; [vm_compute; reflexivity|].
    split; [left; reflexivity | reflexivity].
  - intros Hnone.
    apply (update_btb_undefined_iff initialize_btb 7 4088 0 0 BRANCH_DIRECT_JUMP
             initialize_btb_wf) in Hnone.
    destruct Hnone as (_ & _ & _ & Hlast). vm_compute in Hlast. discriminate.
Defined.

(** ** The indirect table: sharing and isolation of slots *)

Lemma indirect_slot_low_bits x y h :
  x mod BASIC_BTB_INDIRECT_SIZE = y mod BASIC_BTB_INDIRECT_SIZE ->
  Z.lxor x h mod BASIC_BTB_INDIRECT_SIZE = Z.lxor y h mod BASIC_BTB_INDIRECT_SIZE.
Proof.
  unfold BASIC_BTB_INDIRECT_SIZE. change 4096 with (2 ^ 12).
  rewrite <- !Z.land_ones by lia. intros Hxy.
  apply Z.bits_inj'. intros i Hi.
  rewrite !Z.land_spec, !Z.lxor_spec.
  assert (Hb : Z.testbit (Z.land x (Z.ones 12)) i = Z.testbit (Z.land y (Z.ones 12)) i)
    by (rewrite Hxy; reflexivity).
  rewrite !Z.land_spec in Hb.
  destruct (Z.testbit (Z.ones 12) i).
  - rewrite !andb_true_r in *. rewrite Hb. reflexivity.
  - rewrite !andb_false_r. reflexivity.
Qed.

(** X9. The indirect table has no tags. After an update for an indirect
    branch at [ip1], a prediction for an indirect branch at any address
    [ip2] that maps to the same slot under the same history returns the
    target stored for [ip1]; that is so whenever [ip1 >> 2] and [ip2 >> 2]
    agree modulo the size of the table. A prediction for an address that
    maps to another slot returns what it returned before the update. *)
Theorem indirect_slots_shared
    s current_cycle ip1 branch_target taken bt current_cycle' ip2 bt' :
  wf s -> is_indirect bt = true -> is_indirect bt' = true ->
  let slot ip := Z.lxor (Z.shiftr ip 2) (basic_btb_conditional_history s)
                 mod BASIC_BTB_INDIRECT_SIZE in
  exists s',
    update_btb s current_cycle ip1 branch_target taken bt = Some s'
    /\ (slot ip2 = slot ip1 ->
        fst <$> btb_prediction s' current_cycle' ip2 bt' = Some (branch_target, 1))
    /\ (Z.shiftr ip2 2 mod BASIC_BTB_INDIRECT_SIZE
        = Z.shiftr ip1 2 mod BASIC_BTB_INDIRECT_SIZE ->
        slot ip2 = slot ip1)
    /\ (slot ip2 <> slot ip1 ->
        fst <$> btb_prediction s' current_cycle' ip2 bt'
        = fst <$> btb_prediction s current_cycle' ip2 bt').
Proof.
  intros Hwf Hbt Hbt' slot.
  pose proof (update_btb_indirect_eq s current_cycle ip1 branch_target taken bt
                Hwf Hbt) as Hu.
  pose proof (update_btb_wf _ _ _ _ _ _ _ Hwf Hu) as Hwf'.
  assert (Hin : 0 <= slot ip1 < Z.of_nat (length (basic_btb_indirect s))).
  { rewrite (wf_indirect s Hwf). subst slot. unfold BASIC_BTB_INDIRECT_SIZE.
    pose proof (Z.mod_pos_bound
                  (Z.lxor (Z.shiftr ip1 2) (basic_btb_conditional_history s)) 4096).
    lia. }
  assert (Hread : forall s0, wf s0 ->
            basic_btb_conditional_history s0 = basic_btb_conditional_history s ->
            fst <$> btb_prediction s0 current_cycle' ip2 bt'
            = (fun t => (t, 1)) <$> arr_get (basic_btb_indirect s0) (slot ip2)).
  { intros s0 Hwf0 Hh.
    destruct (btb_prediction_cases s0 current_cycle' ip2 bt' Hwf0)
      as (s1 & _ & [(-> & _) | [(_ & t & Ht & ->) | [(Hu' & _) | (Hu' & _)]]]).
    - discriminate Hbt'.
    - rewrite Hh in Ht. subst slot. simpl. rewrite Ht. reflexivity.
    - destruct bt'; discriminate.
    - destruct bt'; discriminate. }
  eexists. split; [exact Hu|].
  rewrite (Hread _ Hwf' eq_refl), (Hread s Hwf eq_refl). simpl basic_btb_indirect.
  fold (slot ip1). split; [|split].
  - intros ->. rewrite arr_get_insert_eq by exact Hin. reflexivity.
  - intros Hlow. subst slot. simpl. apply indirect_slot_low_bits. exact Hlow.
  - intros Hne. rewrite arr_get_insert_ne by (try lia; auto). reflexivity.
Qed.

Lemma indirect_slots_shared_witness :
  exists s',
    update_btb initialize_btb 7 4096 8192 1 BRANCH_INDIRECT = Some s'
    /\ fst <$> btb_prediction s' 9 20483 BRANCH_INDIRECT = Some (8192, 1)
    /\ fst <$> btb_prediction s' 9 4100 BRANCH_INDIRECT = Some (0, 1).
Proof.
  destruct (indirect_slots_shared initialize_btb 7 4096 8192 1 BRANCH_INDIRECT
              9 20483 BRANCH_INDIRECT initialize_btb_wf eq_refl eq_refl)
    as (s' & Hu & Hsame & _ & _).
  destruct (indirect_slots_shared initialize_btb 7 4096 8192 1 BRANCH_INDIRECT
              9 4100 BRANCH_INDIRECT initialize_btb_wf eq_refl eq_refl)
    as (s'' & Hu' & _ & _ & Hother).
  assert (s'' = s') as -> by congruence.
  exists s'. split; [exact Hu|]. split.
  - apply Hsame. reflexivity.
  - rewrite Hother by (vm_compute; discriminate). vm_compute. reflexivity.
Defined.

(** ** The history register along a trace *)

Lemma conditional_outcomes_cons c cs :
  conditional_outcomes (c :: cs)
  = match c with
    | Update _ _ _ tk BRANCH_CONDITIONAL => truthy tk :: conditional_outcomes cs
    | _ => conditional_outcomes cs
    end.
Proof. destruct c as [? ? ?|? ? ? ? bt]; [reflexivity | destruct bt; reflexivity]. Qed.

Lemma step_history s c s' :
  wf s -> step s c = Some s' ->
  basic_btb_conditional_history s'
  = match c with
    | Update _ _ _ tk BRANCH_CONDITIONAL =>
        bitset_set0 (bitset_shl1 (basic_btb_conditional_history s)) (truthy tk)
    | _ => basic_btb_conditional_history s
    end.
Proof.
  intros Hwf Hstep. destruct c as [cy ip bt | cy ip tgt tk bt]; simpl in Hstep.
  - apply fmap_Some in Hstep as ([r s1] & Hp & ->).
    destruct (btb_prediction_history s cy ip bt Hwf) as (r' & s1' & Hp' & Hh).
    assert (s1' = s1) as -> by congruence. exact Hh.
  - rewrite (update_btb_history _ _ _ _ _ _ _ Hstep). destruct bt; reflexivity.
Qed.

(** X10. The history register holds the outcomes of the most recent
    conditional branches, the latest in bit 0. After any sequence of
    predictions and updates, bit [i] of the register, for [i] below its
    width, is the outcome of the conditional update that is [i]-th from the
    end of the sequence; when the sequence has no more than [i] conditional
    updates, it is the bit of the register at the start, moved up by their
    number. No other call has any effect on it. *)
Theorem history_holds_recent_outcomes cs : forall s s',
  wf s -> run s cs = Some s' ->
  let outcomes := conditional_outcomes cs in
  (forall (i : nat) b,
     Z.of_nat i < lg2 BASIC_BTB_INDIRECT_SIZE ->
     rev outcomes !! i = Some b ->
     Z.testbit (basic_btb_conditional_history s') (Z.of_nat i) = b)
  /\ (forall i,
        Z.of_nat (length outcomes) <= i < lg2 BASIC_BTB_INDIRECT_SIZE ->
        Z.testbit (basic_btb_conditional_history s') i
        = Z.testbit (basic_btb_conditional_history s)
            (i - Z.of_nat (length outcomes))).
Proof.
  change (lg2 BASIC_BTB_INDIRECT_SIZE) with 12.
  induction cs as [|c cs IH]; intros s s' Hwf Hrun.
  - injection Hrun as <-. simpl. split.
    + intros i b _ Hi. discriminate Hi.
    + intros i Hi. rewrite Z.sub_0_r. reflexivity.
  - simpl in Hrun. apply bind_Some in Hrun as (s1 & Hstep & Hrun).
    pose proof (step_wf _ _ _ Hwf Hstep) as Hwf1.
    pose proof (step_history _ _ _ Hwf Hstep) as Hh1.
    destruct (IH s1 s' Hwf1 Hrun) as [Hnew Hold]. clear IH.
    cbv zeta. rewrite conditional_outcomes_cons.
    set (outs := conditional_outcomes cs) in *.
    assert (Hplain : basic_btb_conditional_history s1 = basic_btb_conditional_history s ->
              (forall (i : nat) b, Z.of_nat i < 12 -> rev outs !! i = Some b ->
                 Z.testbit (basic_btb_conditional_history s') (Z.of_nat i) = b)
              /\ (forall i, Z.of_nat (length outs) <= i < 12 ->
                    Z.testbit (basic_btb_conditional_history s') i
                    = Z.testbit (basic_btb_conditional_history s)
                        (i - Z.of_nat (length outs)))).
    { intros Heq. split; [exact Hnew|]. intros i Hi. rewrite <- Heq. apply Hold. exact Hi. }
    destruct c as [cy ip bt | cy ip tgt tk bt]; [apply Hplain; exact Hh1|].
    destruct bt; try (apply Hplain; exact Hh1).
    split.
    + intros i b Hi Hb. simpl rev in Hb.
      destruct (decide (i < length outs)%nat) as [Hlt | Hge].
      * apply (Hnew i b Hi). rewrite lookup_app_l in Hb by (rewrite length_rev; exact Hlt).
        exact Hb.
      * rewrite lookup_app_r in Hb by (rewrite length_rev; lia).
        rewrite length_rev in Hb.
        destruct (i - length outs)%nat as [|k] eqn:Hk;
          [|apply lookup_lt_Some in Hb; simpl in Hb; lia].
        injection Hb as <-.
        rewrite Hold by lia. rewrite Hh1, history_shift_bits.
        replace (Z.of_nat i - Z.of_nat (length outs)) with 0 by lia. reflexivity.
    + intros i Hi. simpl length in Hi.
      rewrite Hold by lia. rewrite Hh1, history_shift_bits.
      change (lg2 BASIC_BTB_INDIRECT_SIZE) with 12.
      destruct (Z.eqb_spec (i - Z.of_nat (length outs)) 0) as [H0|H0]; [lia|].
      destruct (Z.ltb_spec (i - Z.of_nat (length outs)) 12); [|lia].
      simpl andb. f_equal. simpl length. lia.
Qed.

Lemma history_holds_recent_outcomes_witness :
  exists s',
    run initialize_btb
      [Update 1 4096 8192 1 BRANCH_CONDITIONAL;
       Predict 2 4096 BRANCH_DIRECT_CALL;
       Update 3 4096 8192 0 BRANCH_CONDITIONAL;
       Update 4 4096 8192 1 BRANCH_CONDITIONAL] = Some s'
    /\ Z.testbit (basic_btb_conditional_history s') 0 = true
    /\ Z.testbit (basic_btb_conditional_history s') 1 = false
    /\ Z.testbit (basic_btb_conditional_history s') 2 = true
    /\ Z.testbit (basic_btb_conditional_history s') 3 = false.
Proof.
  set (cs := [Update 1 4096 8192 1 BRANCH_CONDITIONAL;
              Predict 2 4096 BRANCH_DIRECT_CALL;
              Update 3 4096 8192 0 BRANCH_CONDITIONAL;
              Update 4 4096 8192 1 BRANCH_CONDITIONAL]).
  destruct (run initialize_btb cs) as [s'|] eqn:Hrun;
    [|vm_compute in Hrun; discriminate Hrun].
  destruct (history_holds_recent_outcomes cs initialize_btb s' initialize_btb_wf Hrun)
    as [Hnew Hold].
  exists s'. split; [reflexivity|].
  split; [apply (Hnew 0%nat); [vm_compute|]; reflexivity|].
  split; [apply (Hnew 1%nat); [vm_compute|]; reflexivity|].
  split; [apply (Hnew 2%nat); [vm_compute|]; reflexivity|].
  rewrite (Hold 3) by (vm_compute; split; [discriminate | reflexivity]).
  reflexivity.
Defined.

(** ** The target cache: an update, then a prediction *)

(** X11. What a prediction returns right after an update for the same
    address, both of kinds served by the target cache. If the update found
    the address, the prediction returns the target just reported, 0 for one,
    and as flag the conjunction of the flag stored before and the outcome.
    If the update missed and allocated, it returns the target with the flag
    set. If the update missed and did not allocate, the address is still
    not found and the prediction returns [(0, 1)]. *)
Theorem update_then_predict
    s current_cycle ip branch_target taken bt current_cycle' bt' s' :
  wf s -> uses_btb bt = true -> uses_btb bt' = true ->
  update_btb s current_cycle ip branch_target taken bt = Some s' ->
  exists r,
    find_if_tag (basic_btb s) ip (set_begin_of ip) (Z.to_nat BASIC_BTB_WAYS) = Some r
    /\ (r <> set_end_of ip ->
        exists e,
          arr_get (basic_btb s) r = Some e
          /\ fst <$> btb_prediction s' current_cycle' ip bt'
             = Some (branch_target, Z.b2z (always_taken e && truthy taken)))
    /\ (r = set_end_of ip -> branch_target <> 0 -> taken <> 0 ->
        fst <$> btb_prediction s' current_cycle' ip bt' = Some (branch_target, 1))
    /\ (r = set_end_of ip -> branch_target = 0 \/ taken = 0 ->
        fst <$> btb_prediction s' current_cycle' ip bt' = Some (0, 1)).
Proof.
  intros Hwf Hbt Hbt' Hu.
  pose proof (wf_btb s Hwf) as Hlen.
  destruct (find_in_set (basic_btb s) Hlen ip) as (r & Hr & Hrange & _ & Hat).
  exists r. split; [exact Hr|]. split; [|split].
  - intros Hne. destruct (Hat Hne) as (e & He & _). exists e. split; [exact He|].
    destruct (found_update_predicted_flag s current_cycle ip branch_target taken bt
                current_cycle' bt' r e Hwf Hbt Hbt' Hr Hne He) as (s'' & Hu' & Hp).
    assert (s'' = s') as -> by congruence. exact Hp.
  - intros -> Ht Hk.
    destruct (fresh_allocation_predicted_taken s current_cycle ip branch_target taken
                bt current_cycle' bt' Hwf Hbt Hbt' Hr Ht Hk) as (s'' & Hu' & Hp).
    assert (s'' = s') as -> by congruence. exact Hp.
  - intros -> Hno.
    pose proof (update_btb_wf _ _ _ _ _ _ _ Hwf Hu) as Hwf'.
    assert (Hfind' : find_if_tag (basic_btb s') ip (set_begin_of ip)
                       (Z.to_nat BASIC_BTB_WAYS) = Some (set_end_of ip)).
    { rewrite <- Hr. apply find_if_tag_ext. intros j Hj.
      apply (update_btb_uses_btb_inv _ _ _ _ _ _ _ Hbt) in Hu
        as (b & it & e & Hentry & _ & ->).
      rewrite (update_btb_entry_not_allocated _ _ _ _ Hr Hno) in Hentry.
      injection Hentry as <- <-. simpl.
      rewrite arr_get_insert_ne; [reflexivity | |].
      - pose proof (set_begin_of_range ip). unfold set_end_of.
        unfold BASIC_BTB_WAYS in *. lia.
      - unfold set_end_of.
        change (Z.of_nat (Z.to_nat BASIC_BTB_WAYS)) with BASIC_BTB_WAYS in Hj. lia. }
    destruct (btb_prediction_miss_eq s' current_cycle' ip bt' Hwf' Hbt' Hfind')
      as (s'' & -> & _).
    reflexivity.
Qed.

Lemma update_then_predict_witness :
  exists s1 s2 s3,
    update_btb initialize_btb 1 4096 8192 1 BRANCH_CONDITIONAL = Some s1
    /\ fst <$> btb_prediction s1 2 4096 BRANCH_CONDITIONAL = Some (8192, 1)
    /\ update_btb s1 3 4096 0 0 BRANCH_CONDITIONAL = Some s2
    /\ fst <$> btb_prediction s2 4 4096 BRANCH_CONDITIONAL = Some (0, 0)
    /\ update_btb s2 5 8192 0 0 BRANCH_CONDITIONAL = Some s3
    /\ fst <$> btb_prediction s3 6 8192 BRANCH_CONDITIONAL = Some (0, 1).
Proof.
  set (s1 := set_btb (set_history initialize_btb 1)
               (<[0%nat := mkEntry 4096 8192 true 1]> (basic_btb initialize_btb))).
  set (s2 := set_btb (set_history initialize_btb 2)
               (<[0%nat := mkEntry 4096 0 false 3]> (basic_btb initialize_btb))).
  set (s3 := set_btb (set_history initialize_btb 4)
               (<[8%nat := mkEntry 8192 0 false 5]> (basic_btb s2))).
  assert (H1 : update_btb initialize_btb 1 4096 8192 1 BRANCH_CONDITIONAL = Some s1)
    by (vm_compute; reflexivity).
  assert (H2 : update_btb s1 3 4096 0 0 BRANCH_CONDITIONAL = Some s2)
    by (vm_compute; reflexivity).
  assert (H3 : update_btb s2 5 8192 0 0 BRANCH_CONDITIONAL = Some s3)
    by (vm_compute; reflexivity).
  pose proof initialize_btb_wf as Hwf0.
  pose proof (update_btb_wf _ _ _ _ _ _ _ Hwf0 H1) as Hwf1.
  pose proof (update_btb_wf _ _ _ _ _ _ _ Hwf1 H2) as Hwf2.
  exists s1, s2, s3. split; [exact H1|]. split.
  { destruct (update_then_predict initialize_btb 1 4096 8192 1 BRANCH_CONDITIONAL
                2 BRANCH_CONDITIONAL s1 Hwf0
                eq_refl eq_refl H1) as (r & Hr & _ & Halloc & _).
    vm_compute in Hr. injection Hr as <-. apply Halloc; [reflexivity | lia | lia]. }
  split; [exact H2|]. split.
  { destruct (update_then_predict s1 3 4096 0 0 BRANCH_CONDITIONAL
                4 BRANCH_CONDITIONAL s2 Hwf1
                eq_refl eq_refl H2) as (r & Hr & Hhit & _ & _).
    vm_compute in Hr. injection Hr as <-.
    destruct Hhit as (e & He & Hp); [vm_compute; discriminate|].
    vm_compute in He. injection He as <-. exact Hp. }
  split; [exact H3|].
  destruct (update_then_predict s2 5 8192 0 0 BRANCH_CONDITIONAL
              6 BRANCH_CONDITIONAL s3 Hwf2
              eq_refl eq_refl H3) as (r & Hr & _ & _ & Hmiss).
  vm_compute in Hr. injection Hr as <-. apply Hmiss; [reflexivity | left; reflexivity].
Defined.

(** X12. A cleared flag stays cleared. If an address is found in the target
    cache with the always-taken flag cleared, then after any sequence of
    predictions and updates during which its slot keeps its tag, a prediction
    of a kind served by the target cache for that address reports the flag
    cleared: no outcome reported later sets it again. *)
Theorem cleared_flag_persists s ip r cs s' current_cycle bt :
  wf s -> uses_btb bt = true ->
  tracked_not_taken s ip r ->
  run s cs = Some s' ->
  (forall cs1 cs2 s1, cs = cs1 ++ cs2 -> run s cs1 = Some s1 ->
     slot_tag s1 r = Some ip) ->
  exists t, fst <$> btb_prediction s' current_cycle ip bt = Some (t, 0).
Proof.
  intros Hwf Hbt Htr Hrun Hkept.
  apply (tracked_not_taken_predicted s' ip r current_cycle bt).
  - apply (run_wf cs s s' Hwf Hrun).
  - exact Hbt.
  - apply (tracked_not_taken_run ip r cs s s' Hwf Htr Hrun Hkept).
Qed.

Lemma cleared_flag_persists_witness :
  exists s' t,
    run not_taken_example
      [Predict 20 4 BRANCH_CONDITIONAL;
       Update 21 4100 9000 1 BRANCH_DIRECT_JUMP;
       Update 22 4 8192 1 BRANCH_CONDITIONAL] = Some s'
    /\ fst <$> btb_prediction s' 23 4 BRANCH_CONDITIONAL = Some (t, 0).
Proof.
  set (cs := [Predict 20 4 BRANCH_CONDITIONAL;
              Update 21 4100 9000 1 BRANCH_DIRECT_JUMP;
              Update 22 4 8192 1 BRANCH_CONDITIONAL]).
  assert (Hwf : wf not_taken_example).
  { split; vm_compute; try reflexivity; split; congruence. }
  destruct (run not_taken_example cs) as [s'|] eqn:Hrun;
    [|vm_compute in Hrun; discriminate Hrun].
  destruct (cleared_flag_persists not_taken_example 4 8 cs s' 23 BRANCH_CONDITIONAL
              Hwf eq_refl) as (t & Ht).
  - split; [vm_compute; reflexivity|]. split; [vm_compute; discriminate|].
    eexists. split; vm_compute; reflexivity.
  - exact Hrun.
  - intros cs1 cs2 s1 Hcs Hrun1.
    destruct cs1 as [|c1 [|c2 [|c3 [|c4 cs1]]]]; simpl in Hcs.
    + injection Hrun1 as <-. vm_compute. reflexivity.
    + injection Hcs as <- _. vm_compute in Hrun1. injection Hrun1 as <-.
      vm_compute. reflexivity.
    + injection Hcs as <- <- _. vm_compute in Hrun1. injection Hrun1 as <-.
      vm_compute. reflexivity.
    + injection Hcs as <- <- <- _. vm_compute in Hrun1. injection Hrun1 as <-.
      vm_compute. reflexivity.
    + discriminate Hcs.
  - exists s', t. split; [reflexivity | exact Ht].
Defined.

(** ** The target cache: where tags sit *)

Lemma tags_placed_same_tags btb btb' :
  (forall j, ip_tag <$> arr_get btb' j = ip_tag <$> arr_get btb j) ->
  tags_placed btb -> tags_placed btb'.
Proof.
  intros Hsame [Hplace Huniq].
  assert (Hback : forall j e', arr_get btb' j = Some e' ->
            exists e, arr_get btb j = Some e /\ ip_tag e = ip_tag e').
  { intros j e' He'. specialize (Hsame j). rewrite He' in Hsame. simpl in Hsame.
    destruct (arr_get btb j) as [e|]; [|discriminate].
    exists e. split; [reflexivity|]. simpl in Hsame. congruence. }
  split.
  - intros j e' He' Hnz. destruct (Hback j e' He') as (e & He & Htag).
    rewrite <- Htag in *. apply (Hplace j e He Hnz).
  - intros j1 j2 e1' e2' H1 H2 Heq Hnz Hj1 Hj2.
    destruct (Hback j1 e1' H1) as (e1 & He1 & Ht1).
    destruct (Hback j2 e2' H2) as (e2 & He2 & Ht2).
    rewrite <- Ht1 in *. apply (Huniq j1 j2 e1 e2 He1 He2); congruence.
Qed.

Lemma tags_placed_write btb it new :
  tags_placed btb ->
  0 <= it < Z.of_nat (length btb) ->
  set_begin_of (ip_tag new) <= it <= set_end_of (ip_tag new) ->
  (exists e, arr_get btb it = Some e /\ ip_tag e = ip_tag new)
  \/ (forall j e, set_begin_of (ip_tag new) <= j < set_end_of (ip_tag new) ->
        arr_get btb j = Some e -> ip_tag e <> ip_tag new) ->
  tags_placed (<[Z.to_nat it := new]> btb).
Proof.
  intros [Hplace Huniq] Hit Hrange Hcase.
  assert (Hget : forall j e, arr_get (<[Z.to_nat it := new]> btb) j = Some e ->
            (j = it /\ e = new) \/ (j <> it /\ arr_get btb j = Some e)).
  { intros j e He. destruct (decide (j = it)) as [-> | Hne].
    - rewrite arr_get_insert_eq in He by exact Hit. left. split; congruence.
    - rewrite arr_get_insert_ne in He by lia. right. auto. }
  assert (Hclash : forall j e, j <> it -> arr_get btb j = Some e ->
            ip_tag e = ip_tag new -> ip_tag new <> 0 ->
            j < set_end_of (ip_tag new) -> it < set_end_of (ip_tag new) -> False).
  { intros j e Hne He Htag Hnz Hj Hit'.
    destruct Hcase as [(e0 & He0 & Ht0) | Hmiss].
    - apply Hne. apply (Huniq j it e e0 He He0); congruence.
    - apply (Hmiss j e); [|exact He|exact Htag].
      pose proof (Hplace j e He ltac:(congruence)) as Hp. rewrite Htag in Hp. lia. }
  split.
  - intros j e He Hnz. destruct (Hget j e He) as [[-> ->] | [_ He']].
    + exact Hrange.
    + apply (Hplace j e He' Hnz).
  - intros j1 j2 e1 e2 H1 H2 Heq Hnz Hj1 Hj2.
    destruct (Hget j1 e1 H1) as [[-> ->] | [Hn1 H1']];
      destruct (Hget j2 e2 H2) as [[-> ->] | [Hn2 H2']].
    + reflexivity.
    + exfalso. apply (Hclash j2 e2 Hn2 H2'); congruence.
    + exfalso. rewrite Heq in *. apply (Hclash j1 e1 Hn1 H1'); congruence.
    + apply (Huniq j1 j2 e1 e2 H1' H2' Heq Hnz Hj1 Hj2).
Qed.

Lemma step_tags_placed s c s' :
  wf s -> tags_placed (basic_btb s) -> step s c = Some s' ->
  tags_placed (basic_btb s').
Proof.
  intros Hwf Hplaced Hstep. pose proof (wf_btb s Hwf) as Hlen.
  destruct c as [cy ip bt | cy ip tgt tk bt]; simpl in Hstep.
  - apply fmap_Some in Hstep as ([res s1] & Hp & ->). simpl.
    destruct (btb_prediction_cases s cy ip bt Hwf) as (s1' & Hs1 & Hcases).
    destruct (prediction_push s ip bt Hwf) as (s1'' & Hs1'' & _ & Hb & _).
    assert (s1'' = s1') as -> by congruence.
    destruct Hcases as [(_ & t1 & t2 & _ & _ & Hpred)
                       | [(_ & t & _ & Hpred)
                         | [(_ & _ & Hpred)
                           | (_ & r & e & _ & _ & He & _ & Hpred)]]];
      rewrite Hpred in Hp; injection Hp as _ <-;
      try (rewrite Hb; exact Hplaced).
    simpl. apply (tags_placed_same_tags (basic_btb s)); [|exact Hplaced].
    intros j. destruct (decide (j = r)) as [-> | Hne].
    + rewrite arr_get_insert_eq by (apply arr_get_lt in He; exact He).
      rewrite He. reflexivity.
    + rewrite arr_get_insert_ne; [reflexivity | | auto].
      apply arr_get_lt in He. lia.
  - destruct (branch_type_cases bt) as [-> | [Hind | Hbt]].
    + destruct (update_btb_table s cy ip tgt tk BRANCH_RETURN s' Hwf Hstep)
        as [(_ & ->) | (it & flag & Hno & _)]; [exact Hplaced | discriminate Hno].
    + destruct (update_btb_table s cy ip tgt tk bt s' Hwf Hstep)
        as [(_ & ->) | (it & flag & Hno & _)]; [exact Hplaced|].
      destruct bt; discriminate.
    + destruct (find_in_set (basic_btb s) Hlen ip) as (r & Hr & Hrange & Hbefore & Hat).
      apply (update_btb_uses_btb_inv _ _ _ _ _ _ _ Hbt) in Hstep
        as (b & it & e & Hentry & He & ->).
      simpl.
      apply update_btb_entry_inv in Hentry
        as [(-> & Hfind & _) | (e' & Hmiss & Ht & Hk & Hmin & He' & ->)].
      * assert (it = r) as -> by congruence.
        apply tags_placed_write; [exact Hplaced | | exact Hrange |].
        -- apply arr_get_lt in He. exact He.
        -- simpl. destruct (decide (r = set_end_of ip)) as [-> | Hne].
           ++ right. exact Hbefore.
           ++ left. apply Hat. exact Hne.
      * rewrite list_insert_insert_eq.
        assert (r = set_end_of ip) as -> by congruence.
        destruct (update_btb_entry_allocated (basic_btb s) Hlen ip tgt tk
                    Hmiss Ht Hk) as (v & ev & Hv & Hvr & _).
        assert (Hit : it = v) by congruence.
        subst it.
        apply tags_placed_write; [exact Hplaced | | simpl; lia |].
        -- apply arr_get_lt in He'. exact He'.
        -- simpl. right. exact Hbefore.
Qed.

Lemma run_tags_placed cs : forall s s',
  wf s -> tags_placed (basic_btb s) -> run s cs = Some s' ->
  tags_placed (basic_btb s').
Proof.
  induction cs as [|c cs IH]; intros s s' Hwf Hplaced Hrun; simpl in Hrun.
  - injection Hrun as <-. exact Hplaced.
  - apply bind_Some in Hrun as (s1 & Hstep & Hrun).
    apply (IH s1 s' (step_wf _ _ _ Hwf Hstep)
             (step_tags_placed _ _ _ Hwf Hplaced Hstep) Hrun).
Qed.

Lemma tags_placed_initially : tags_placed (basic_btb initialize_btb).
Proof.
  split.
  - intros j e He Hnz. apply arr_get_replicate_inv in He. subst e.
    simpl in Hnz. congruence.
  - intros j1 j2 e1 e2 H1 _ _ Hnz. apply arr_get_replicate_inv in H1. subst e1.
    simpl in Hnz. congruence.
Qed.

(** X13. Tags in the states the predictor reaches from its initial state.
    Whatever the sequence of predictions and updates, an entry with a
    non-zero tag lies in the set of the address that is its tag, or it is
    the first entry of the set after that one; and no set holds the same
    non-zero tag in two entries, so that the search of a set for an address
    other than 0 finds at most one candidate. *)
Theorem nonzero_tags_unique cs s :
  run initialize_btb cs = Some s ->
  (forall j e,
     arr_get (basic_btb s) j = Some e -> ip_tag e <> 0 ->
     j / BASIC_BTB_WAYS = Z.shiftr (ip_tag e) 2 mod BASIC_BTB_SETS
     \/ j = (Z.shiftr (ip_tag e) 2 mod BASIC_BTB_SETS + 1) * BASIC_BTB_WAYS)
  /\ (forall j1 j2 e1 e2,
        arr_get (basic_btb s) j1 = Some e1 ->
        arr_get (basic_btb s) j2 = Some e2 ->
        ip_tag e1 = ip_tag e2 -> ip_tag e1 <> 0 ->
        j1 / BASIC_BTB_WAYS = j2 / BASIC_BTB_WAYS ->
        j1 = j2).
Proof.
  intros Hrun.
  destruct (run_tags_placed cs initialize_btb s initialize_btb_wf
              tags_placed_initially Hrun) as [Hplace Huniq].
  assert (Hquot : forall j t,
            set_begin_of t <= j <= set_end_of t ->
            (j < set_end_of t /\ j / BASIC_BTB_WAYS = Z.shiftr t 2 mod BASIC_BTB_SETS)
            \/ (j = set_end_of t
                /\ j / BASIC_BTB_WAYS = Z.shiftr t 2 mod BASIC_BTB_SETS + 1
                /\ j = (Z.shiftr t 2 mod BASIC_BTB_SETS + 1) * BASIC_BTB_WAYS)).
  { intros j t. unfold set_end_of, set_begin_of.
    generalize (Z.shiftr t 2 mod BASIC_BTB_SETS). intros k Hj.
    unfold BASIC_BTB_WAYS in *.
    destruct (decide (j < k * 8 + 8)) as [Hlt | Hge].
    - left. split; [exact Hlt|]. Z.div_mod_to_equations. lia.
    - right. assert (j = k * 8 + 8) as -> by lia. split; [reflexivity|].
      split; [Z.div_mod_to_equations|]; lia. }
  split.
  - intros j e He Hnz.
    destruct (Hquot j (ip_tag e) (Hplace j e He Hnz)) as [[_ Hq] | (_ & _ & Hq)];
      auto.
  - intros j1 j2 e1 e2 H1 H2 Heq Hnz Hsame.
    pose proof (Hplace j1 e1 H1 Hnz) as Hp1.
    pose proof (Hplace j2 e2 H2 ltac:(congruence)) as Hp2. rewrite <- Heq in Hp2.
    destruct (Hquot _ _ Hp1) as [[Hl1 Hq1] | (He1 & Hq1 & _)];
      destruct (Hquot _ _ Hp2) as [[Hl2 Hq2] | (He2 & Hq2 & _)]; try lia.
    apply (Huniq j1 j2 e1 e2 H1 H2 Heq Hnz Hl1 Hl2).
Qed.

Lemma nonzero_tags_unique_witness :
  exists s,
    run initialize_btb
      [Update 1 4096 8192 1 BRANCH_CONDITIONAL;
       Update 2 8192 0 0 BRANCH_CONDITIONAL;
       Update 3 4100 9000 1 BRANCH_DIRECT_CALL] = Some s
    /\ forall j1 j2 e1 e2,
         arr_get (basic_btb s) j1 = Some e1 ->
         arr_get (basic_btb s) j2 = Some e2 ->
         ip_tag e1 = ip_tag e2 -> ip_tag e1 <> 0 ->
         j1 / BASIC_BTB_WAYS = j2 / BASIC_BTB_WAYS ->
         j1 = j2.
Proof.
  set (cs := [Update 1 4096 8192 1 BRANCH_CONDITIONAL;
              Update 2 8192 0 0 BRANCH_CONDITIONAL;
              Update 3 4100 9000 1 BRANCH_DIRECT_CALL]).
  destruct (run initialize_btb cs) as [s|] eqn:Hrun;
    [|vm_compute in Hrun; discriminate Hrun].
  exists s. split; [reflexivity|].
  apply (nonzero_tags_unique cs s Hrun).
Defined.

(** ** The target cache: recency protects an entry *)



(** ** The call-size trackers: sharing *)

(** X15. The trackers have no tags either. When the update for a return
    records a distance for the call site on top of the RAS, the size read
    for a call site changes exactly when its address is congruent to that
    call site modulo [BASIC_BTB_CALL_INSTR_SIZE_TRACKERS]; it is then the
    recorded distance. *)
Theorem call_size_trackers_shared
    s current_cycle ip branch_target taken call_ip other :
  wf s ->
  peek_basic_btb_ras s = Some call_ip ->
  Z.abs (call_ip - branch_target) <= 10 ->
  exists s',
    update_btb s current_cycle ip branch_target taken BRANCH_RETURN = Some s'
    /\ (other mod BASIC_BTB_CALL_INSTR_SIZE_TRACKERS
        = call_ip mod BASIC_BTB_CALL_INSTR_SIZE_TRACKERS ->
        basic_btb_get_call_size s' other = Some (Z.abs (call_ip - branch_target)))
    /\ (other mod BASIC_BTB_CALL_INSTR_SIZE_TRACKERS
        <> call_ip mod BASIC_BTB_CALL_INSTR_SIZE_TRACKERS ->
        basic_btb_get_call_size s' other = basic_btb_get_call_size s other).
Proof.
  intros Hwf Hpeek Hdist.
  destruct (update_btb_return_eq s current_cycle ip branch_target taken Hwf)
    as (call_ip' & Hpeek' & Hu).
  assert (call_ip' = call_ip) as -> by congruence.
  cbv zeta in Hu. destruct (Z.leb_spec (Z.abs (call_ip - branch_target)) 10); [|lia].
  eexists. split; [exact Hu|].
  unfold basic_btb_get_call_size. rewrite !basic_btb_call_size_tracker_hash_mod.
  simpl.
  assert (Hin : 0 <= call_ip mod BASIC_BTB_CALL_INSTR_SIZE_TRACKERS
                < Z.of_nat (length (basic_btb_call_instr_sizes s))).
  { rewrite (wf_call_sizes s Hwf). unfold BASIC_BTB_CALL_INSTR_SIZE_TRACKERS.
    pose proof (Z.mod_pos_bound call_ip 1024). lia. }
  split.
  - intros ->. apply arr_get_insert_eq. exact Hin.
  - intros Hne. apply arr_get_insert_ne; [lia | auto].
Qed.

Lemma call_size_trackers_shared_witness :
  exists s1 s',
    push_basic_btb_ras initialize_btb 4096 = Some s1
    /\ update_btb s1 7 9000 4102 1 BRANCH_RETURN = Some s'
    /\ basic_btb_get_call_size s' 5120 = Some 6
    /\ basic_btb_get_call_size s' 4097 = Some 4.
Proof.
  set (s1 := set_ras initialize_btb
               (<[1%nat := 4096]> (basic_btb_ras initialize_btb)) 1).
  assert (Hwf1 : wf s1) by (split; vm_compute; try reflexivity; split; congruence).
  destruct (call_size_trackers_shared s1 7 9000 4102 1 4096 5120 Hwf1 eq_refl)
    as (s' & Hu & Hsame & _); [simpl; lia|].
  destruct (call_size_trackers_shared s1 7 9000 4102 1 4096 4097 Hwf1 eq_refl)
    as (s'' & Hu' & _ & Hother); [simpl; lia|].
  assert (s'' = s') as -> by congruence.
  exists s1, s'. split; [reflexivity|]. split; [exact Hu|]. split.
  - apply Hsame. reflexivity.
  - rewrite Hother by (vm_compute; discriminate). reflexivity.
Defined.

(** ** Predictions do not disturb one another *)

(** X16. A prediction changes no later prediction of a branch that is not a
    return: after any prediction, a prediction of an indirect kind or of a
    kind served by the target cache returns the pair it would have returned
    before. What a prediction leaves behind, a pushed address and a newer
    stamp, is seen by returns and by the replacement only. *)
Theorem predictions_do_not_interfere s current_cycle ip bt r s' c2 ip2 bt2 :
  wf s ->
  btb_prediction s current_cycle ip bt = Some (r, s') ->
  bt2 <> BRANCH_RETURN ->
  fst <$> btb_prediction s' c2 ip2 bt2 = fst <$> btb_prediction s c2 ip2 bt2.
Proof.
  intros Hwf Hp Hbt2.
  pose proof (btb_prediction_wf _ _ _ _ _ _ Hwf Hp) as Hwf'.
  assert (Hstate : basic_btb_indirect s' = basic_btb_indirect s
                   /\ basic_btb_conditional_history s'
                      = basic_btb_conditional_history s
                   /\ forall j, (fun e => (ip_tag e, target e, always_taken e))
                                  <$> arr_get (basic_btb s') j
                                = (fun e => (ip_tag e, target e, always_taken e))
                                    <$> arr_get (basic_btb s) j).
  { destruct (btb_prediction_cases s current_cycle ip bt Hwf) as (s1 & Hs1 & Hcases).
    destruct (prediction_push s ip bt Hwf) as (s1' & Hs1' & _ & Hb & Hi & Hh & _).
    assert (s1' = s1) as -> by congruence.
    destruct Hcases as [(_ & t1 & t2 & _ & _ & Hpred)
                       | [(_ & t & _ & Hpred)
                         | [(_ & _ & Hpred)
                           | (_ & r0 & e & _ & _ & He & _ & Hpred)]]];
      rewrite Hpred in Hp; injection Hp as _ <-;
      try (split; [exact Hi|]; split; [exact Hh|]; intros j; rewrite Hb; reflexivity).
    simpl. split; [exact Hi|]. split; [exact Hh|]. intros j.
    destruct (decide (j = r0)) as [-> | Hne].
    - rewrite arr_get_insert_eq by (apply arr_get_lt in He; exact He).
      rewrite He. reflexivity.
    - rewrite arr_get_insert_ne; [reflexivity | | auto].
      apply arr_get_lt in He. lia. }
  destruct Hstate as (Hi & Hh & Hfields).
  assert (Htags : forall j, ip_tag <$> arr_get (basic_btb s') j
                            = ip_tag <$> arr_get (basic_btb s) j).
  { intros j. specialize (Hfields j).
    destruct (arr_get (basic_btb s') j), (arr_get (basic_btb s) j);
      simpl in *; congruence. }
  destruct (btb_prediction_cases s c2 ip2 bt2 Hwf) as (sa & _ & Ha).
  destruct (btb_prediction_cases s' c2 ip2 bt2 Hwf') as (sb & _ & Hb).
  pose proof (find_if_tag_ext (basic_btb s) (basic_btb s') ip2
                (Z.to_nat BASIC_BTB_WAYS) (set_begin_of ip2) (fun j _ => Htags j))
    as Hfind.
  destruct Ha as [(-> & _) | [(Hind & ta & Hta & ->)
                             | [(Hu & Hma & ->)
                               | (Hu & ra & ea & Hra & Hrange_a & Hea & _ & ->)]]];
    [contradiction| | |];
    destruct Hb as [(-> & _) | [(Hind' & tb & Htb & ->)
                               | [(Hu' & Hmb & ->)
                                 | (Hu' & rb & eb & Hrb & Hrange_b & Heb & _ & ->)]]];
    try contradiction; try (destruct bt2; discriminate); simpl.
  - rewrite Hi, Hh in Htb. congruence.
  - reflexivity.
  - exfalso. rewrite Hfind in Hrb. assert (rb = set_end_of ip2) by congruence. lia.
  - exfalso. rewrite Hfind in Hmb. assert (ra = set_end_of ip2) by congruence. lia.
  - rewrite Hfind in Hrb. assert (rb = ra) as -> by congruence.
    specialize (Hfields ra). rewrite Hea, Heb in Hfields. simpl in Hfields.
    injection Hfields as _ -> ->. reflexivity.
Qed.

Lemma predictions_do_not_interfere_witness :
  exists r s',
    btb_prediction full_set_example 90 16384 BRANCH_DIRECT_CALL = Some (r, s')
    /\ fst <$> btb_prediction s' 91 4096 BRANCH_CONDITIONAL
       = fst <$> btb_prediction full_set_example 91 4096 BRANCH_CONDITIONAL.
Proof.
  assert (Hwf : wf full_set_example).
  { split; vm_compute; try reflexivity; split; congruence. }
  destruct (btb_prediction full_set_example 90 16384 BRANCH_DIRECT_CALL)
    as [[r s']|] eqn:Hp; [|vm_compute in Hp; discriminate Hp].
  exists r, s'. split; [reflexivity|].
  apply (predictions_do_not_interfere full_set_example 90 16384 BRANCH_DIRECT_CALL
           r s' 91 4096 BRANCH_CONDITIONAL Hwf Hp).
  discriminate.
Defined.
